(** * FindAllReferencesProvider: a shallow embedding

    Source: Extension/src/LanguageServer/Providers/findAllReferencesProvider.ts

    The provider sends one [cpptools/findAllReferences] request, arbitrates
    between the ways the query can be cancelled, and turns the confirmed
    hits into locations and context snippets.  The embedding keeps the
    provider's control flow: the calls it makes on its collaborators are
    recorded in order in a log, the environment variable it writes is a
    field of the state, exceptions are results. *)

From Stdlib Require Import List ZArith NArith Lia Bool String Ascii.
From Stdlib Require QArith_base.
Import ListNotations.

Set Implicit Arguments.

(** ** JavaScript primitives used by the provider *)

Module Js.

Definition newline : ascii := Ascii.ascii_of_nat 10.

(** [s.split('\n')]: the pieces between line feeds; never empty. *)
Fixpoint split (s : string) : list string :=
  match s with
  | EmptyString => [EmptyString]
  | String c s' =>
      if Ascii.eqb c newline then EmptyString :: split s'
      else match split s' with
           | piece :: pieces => String c piece :: pieces
           | [] => [String c EmptyString]
           end
  end.

(** [pieces.join('\n')]. *)
Fixpoint join (pieces : list string) : string :=
  match pieces with
  | [] => EmptyString
  | [piece] => piece
  | piece :: rest => append piece (String newline (join rest))
  end.

(** [a.slice(start, end)] for the non-negative arguments the provider
    passes: the elements at indexes [start <= i < end], none when
    [end <= start]. *)
Definition slice {A : Type} (a : list A) (start end_ : Z) : list A :=
  firstn (Z.to_nat (end_ - start)) (skipn (Z.to_nat start) a).

(** [s.substring(start)]: what is left of [s] from index [start] on, the
    empty string when [start] is past the end. *)
Fixpoint substring (s : string) (start : nat) : string :=
  match start, s with
  | O, _ => s
  | S n, EmptyString => EmptyString
  | S n, String _ s' => substring s' n
  end.

End Js.

(** ** Data model *)

(** Zero-based coordinates as the language server sends them (unsigned
    integers of the protocol). *)
Record Position : Type := mkPosition { line : N; character : N }.

(** [new vscode.Range(startLine, startCharacter, endLine, endCharacter)]. *)
Record Range : Type := mkRange { start : Position; end_ : Position }.

(** Modelled from the spec: the enumeration ReferenceType is declared in
    ../references, which is not part of the provider's file.  The provider
    tests for [Confirmed] only; every other classification is a
    [NonConfirmed] tag. *)
Inductive ReferenceType : Type :=
| Confirmed
| NonConfirmed (tag : nat).

Definition isConfirmed (t : ReferenceType) : bool :=
  match t with Confirmed => true | NonConfirmed _ => false end.

Record ReferenceInfo : Type := mkReferenceInfo {
  file : string;
  position : Position;
  type : ReferenceType
}.

Record ReferencesResult : Type := mkReferencesResult {
  referenceInfos : list ReferenceInfo;
  text : string;
  isCanceled : bool
}.

Record ReferencesParams : Type := mkReferencesParams {
  newName : string;
  params_position : Position;
  textDocument : string
}.

(** The part of [vscode.TextDocument] the provider reads. *)
Record TextDocument : Type := mkTextDocument { document_uri : string }.

Record Refs : Type := mkRefs {
  snippet : string;
  relativePath : string;
  startLine : Z;
  endLine : Z;
  score : QArith_base.Q
}.

(** Modelled from the spec: the enumeration CancellationSender is declared
    in ../references.  The provider names the "new request" reason only. *)
Inductive CancellationSender : Type :=
| NewRequest
| OtherSender (tag : nat).

(** What a [throw] can carry: a [ResponseError] of the language client with
    its code, any other value thrown by the transport, and the two
    exceptions the snippet loop itself can raise. *)
Inductive JsError : Type :=
| ResponseError (code : Z) (message : string)
| OtherError (code : option Z) (message : string)
| FileReadError (path : string)
| TypeError (message : string).

(** The two subscriptions the provider holds while the request is pending. *)
Inductive Listener : Type :=
| cancellationTokenListener
| requestCanceledListener.

(** ** Effects

    The provider runs against a world made of the log of the calls it has
    made on its collaborators and of the value of the environment variable
    [__REFERENCED_SYMBOL_SNIPPET__] (the list that [JSON.stringify]
    serialises).  A computation either returns or throws. *)

(** Modelled from the spec: the shared reference session
    ([workspaceReferences], class ReferencesManager of ../references) is not
    part of the provider's file; these are the five operations section 6 of
    the specification lists for it, together with the two handles of the
    editor (subscription to the caller's token, disposal of a subscription)
    and the request sent through the language client.  Only the fact that a
    call is made, its argument and its place in the order are recorded. *)
Inductive Call : Type :=
| cancelCurrentReferenceRequest (sender : CancellationSender)
| token_onCancellationRequested
| workspaceReferences_onCancellationRequested
| sendRequest (params : ReferencesParams)
| resetProgressBar
| dispose (l : Listener)
| resetReferences
| showResultsInPanelView (response : ReferencesResult).

Record World : Type := mkWorld {
  calls : list Call;
  env_REFERENCED_SYMBOL_SNIPPET : option (list Refs)
}.

Definition Prog (A : Type) : Type := World -> World * (JsError + A).

Definition ret {A : Type} (a : A) : Prog A := fun w => (w, inr a).

Definition throw {A : Type} (e : JsError) : Prog A := fun w => (w, inl e).

Definition bind {A B : Type} (c : Prog A) (k : A -> Prog B) : Prog B :=
  fun w =>
    match c w with
    | (w', inr a) => k a w'
    | (w', inl e) => (w', inl e)
    end.

Definition try_catch {A : Type} (c : Prog A) (handler : JsError -> Prog A) : Prog A :=
  fun w =>
    match c w with
    | (w', inr a) => (w', inr a)
    | (w', inl e) => handler e w'
    end.

Definition call (c : Call) : Prog unit :=
  fun w => (mkWorld (calls w ++ [c]) (env_REFERENCED_SYMBOL_SNIPPET w), inr tt).

Definition setEnv (refs : list Refs) : Prog unit :=
  fun w => (mkWorld (calls w) (Some refs), inr tt).

Definition lift {A : Type} (r : JsError + A) : Prog A := fun w => (w, r).

Notation "x <- c ;; k" := (bind c (fun x => k))
  (at level 61, c at next level, right associativity).
Notation "c ;; k" := (bind c (fun _ => k))
  (at level 61, right associativity).

(** ** What the provider is given *)

(** How the pending request ends: the promise resolves with the response
    (which the provider allows to be undefined) or rejects. *)
Inductive Settled : Type :=
| Resolved (response : option ReferencesResult)
| Rejected (e : JsError).

(** ** Vocabulary of the properties *)

(** The calls made before the request is awaited, and the request. *)
Definition prologue (document : TextDocument) (position : Position) : list Call :=
  [cancelCurrentReferenceRequest NewRequest;
   token_onCancellationRequested;
   workspaceReferences_onCancellationRequested;
   sendRequest
     (mkReferencesParams EmptyString
        (mkPosition (line position) (character position)) (document_uri document))].

(** The calls made once the request has settled, before its outcome is
    interpreted. *)
Definition teardown : list Call :=
  [resetProgressBar; dispose cancellationTokenListener; dispose requestCanceledListener].

Definition is_showResultsInPanelView (c : Call) : bool :=
  match c with
  | showResultsInPanelView _ => true
  | _ => false
  end.

Definition hitConfirmed (referenceInfo : ReferenceInfo) : bool :=
  isConfirmed (type referenceInfo).

(** The range of a hit as the specification words it: from the hit's
    position to the same position moved right by the length of the matched
    text, on the hit's line. *)
Definition range_of (matchedTextLength : nat) (referenceInfo : ReferenceInfo) : Range :=
  mkRange (position referenceInfo)
    (mkPosition (line (position referenceInfo))
       (character (position referenceInfo) + N.of_nat matchedTextLength)).

(** A line belongs to the window of a record when it is at or after its
    start and before its end. *)
Definition in_window (x : Z) (r : Refs) : Prop :=
  (startLine r <= x < endLine r)%Z.

Definition windows_disjoint (r1 r2 : Refs) : Prop :=
  forall x : Z, ~ (in_window x r1 /\ in_window x r2).

(** The discipline of the cursor: each record starts strictly after the
    cursor left by the record before it, the first one strictly after the
    initial cursor. *)
Fixpoint emitted_after (cursor : Z) (records : list Refs) : Prop :=
  match records with
  | [] => True
  | r :: rest => (cursor < startLine r)%Z /\ emitted_after (endLine r) rest
  end.

Fixpoint cursor_after (cursor : Z) (records : list Refs) : Z :=
  match records with
  | [] => cursor
  | r :: rest => cursor_after (endLine r) rest
  end.

Section Provider.

(** [vscode.Uri], with [Uri.file] and [toString], belongs to the editor. *)
Variable Uri : Type.
Variable Uri_file : string -> Uri.
Variable Uri_toString : Uri -> string.

(** The two error codes imported from ../protocolFilter. *)
Variable RequestCancelled : Z.
Variable ServerCancelled : Z.

Record Location : Type := mkLocation { uri : Uri; range : Range }.

(** Everything outside the provider that one call depends on: the outcome
    of the request, whether each of the two listeners fired while it was
    pending, the file system and the workspace folders. *)
Record Host : Type := mkHost {
  remote : Settled;
  tokenFired : bool;
  broadcastFired : bool;
  readFileSync : string -> option string;
  workspaceFolders : list Uri
}.

(** [cancelSource.token.isCancellationRequested] once the request has
    settled: either listener calls [cancelSource.cancel()]. *)
Definition isCancellationRequested (h : Host) : bool :=
  tokenFired h || broadcastFired h.

(** ** getRelativePathFromUri *)

Definition getRelativePathFromUri (basePath : Uri) (file : string) : string :=
  let base2 := Uri_file file in
  let relativePath :=
    Js.substring (Uri_toString base2) (String.length (Uri_toString basePath) + 1) in
  relativePath.

(** ** The loop over the hits

    The callback of [forEach] closes over three variables of the enclosing
    function; they are threaded as a record. *)

Definition SnippetWindowSize : Z := 20.

Record Closure : Type := mkClosure {
  locationsResult : list Location;
  refs : list Refs;
  preventOverlappingSnippet : Z
}.

Definition window_startLine (l : N) : Z :=
  Z.max 0 (Z.of_N l - SnippetWindowSize / 2).

Definition window_endLine (fileContentLines : list string) (l : N) : Z :=
  Z.min (Z.of_nat (List.length fileContentLines)) (Z.of_N l + SnippetWindowSize / 2).

Definition forEach_callback (h : Host) (response : ReferencesResult)
    (st : Closure) (referenceInfo : ReferenceInfo) : JsError + Closure :=
  match type referenceInfo with
  | Confirmed =>
      let uri := Uri_file (file referenceInfo) in
      let range :=
        mkRange
          (mkPosition (line (position referenceInfo)) (character (position referenceInfo)))
          (mkPosition (line (position referenceInfo))
             (character (position referenceInfo) + N.of_nat (String.length (text response)))) in
      let locationsResult' := locationsResult st ++ [mkLocation uri range] in
      match readFileSync h (file referenceInfo) with
      | None => inl (FileReadError (file referenceInfo))
      | Some fileContent =>
          let fileContentLines := Js.split fileContent in
          let startLine := window_startLine (line (position referenceInfo)) in
          let endLine := window_endLine fileContentLines (line (position referenceInfo)) in
          let referenceTextSnippet := Js.join (Js.slice fileContentLines startLine endLine) in
          if (startLine >? preventOverlappingSnippet st)%Z then
            match workspaceFolders h with
            | [] => inl (TypeError "workspaceFolders[0] is undefined")
            | folder :: _ =>
                inr (mkClosure locationsResult'
                       (refs st ++
                          [mkRefs referenceTextSnippet
                             (getRelativePathFromUri folder (file referenceInfo))
                             startLine endLine (QArith_base.Qmake 1 1)])
                       endLine)
            end
          else inr (mkClosure locationsResult' (refs st) (preventOverlappingSnippet st))
      end
  | NonConfirmed _ => inr st
  end.

Fixpoint forEach (h : Host) (response : ReferencesResult)
    (infos : list ReferenceInfo) (st : Closure) : JsError + Closure :=
  match infos with
  | [] => inr st
  | referenceInfo :: rest =>
      match forEach_callback h response st referenceInfo with
      | inl e => inl e
      | inr st' => forEach h response rest st'
      end
  end.

(** ** provideReferences

    The model starts once [await this.client.ready] has resolved.  The
    [await] on the request is the single suspension point: its outcome and
    what the listeners did meanwhile are read from the host. *)

Definition languageClient_sendRequest (h : Host) (params : ReferencesParams)
    : Prog (option ReferencesResult) :=
  call (sendRequest params) ;;
  match remote h with
  | Resolved response => ret response
  | Rejected e => throw e
  end.

(** [e instanceof ResponseError && (e.code === RequestCancelled ||
    e.code === ServerCancelled)]. *)
Definition isCancellationError (e : JsError) : bool :=
  match e with
  | ResponseError code _ => (code =? RequestCancelled)%Z || (code =? ServerCancelled)%Z
  | _ => false
  end.

Definition provideReferences (h : Host) (document : TextDocument) (position : Position)
    : Prog (option (list Location)) :=
  call (cancelCurrentReferenceRequest NewRequest) ;;
  call token_onCancellationRequested ;;
  call workspaceReferences_onCancellationRequested ;;
  let params :=
    mkReferencesParams EmptyString
      (mkPosition (line position) (character position))
      (document_uri document) in
  settled <-
    try_catch
      (response <- languageClient_sendRequest h params ;;
       ret (response, false))
      (fun e =>
         let cancelled := isCancellationError e in
         if negb cancelled then throw e else ret (None, cancelled)) ;;
  let '(response, cancelled) := settled in
  call resetProgressBar ;;
  call (dispose cancellationTokenListener) ;;
  call (dispose requestCanceledListener) ;;
  setEnv [] ;;
  if isCancellationRequested h || cancelled
     || match response with Some r => isCanceled r | None => false end
  then
    call resetReferences ;;
    ret None
  else
    match response with
    | Some r =>
        if (0 <? List.length (referenceInfos r))%nat then
          st <- lift (forEach h r (referenceInfos r) (mkClosure [] [] 0%Z)) ;;
          setEnv (refs st) ;;
          call (showResultsInPanelView r) ;;
          ret (Some (locationsResult st))
        else
          call resetReferences ;;
          ret (Some [])
    | None =>
        call resetReferences ;;
        ret (Some [])
    end.

(** The location of a hit as the specification words it: the URI of the
    hit's file with [range_of] for the length of the matched text. *)
Definition location_of (response : ReferencesResult) (referenceInfo : ReferenceInfo)
    : Location :=
  mkLocation (Uri_file (file referenceInfo))
    (range_of (String.length (text response)) referenceInfo).

(** The closure when the loop starts: nothing pushed, the cursor at 0. *)
Definition closure0 : Closure := mkClosure [] [] 0%Z.

(** What one turn of the loop can do to the closure, whatever the hit. *)
Inductive turn (h : Host) (r : ReferencesResult) (ri : ReferenceInfo)
    (st : Closure) : Closure -> Prop :=
| turn_skip :
    hitConfirmed ri = false ->
    turn h r ri st st
| turn_suppress c :
    hitConfirmed ri = true ->
    readFileSync h (file ri) = Some c ->
    (window_startLine (line (position ri)) <= preventOverlappingSnippet st)%Z ->
    turn h r ri st
      (mkClosure (locationsResult st ++ [location_of r ri]) (refs st)
         (preventOverlappingSnippet st))
| turn_emit c record :
    hitConfirmed ri = true ->
    readFileSync h (file ri) = Some c ->
    (preventOverlappingSnippet st < startLine record)%Z ->
    startLine record = window_startLine (line (position ri)) ->
    endLine record = window_endLine (Js.split c) (line (position ri)) ->
    turn h r ri st
      (mkClosure (locationsResult st ++ [location_of r ri]) (refs st ++ [record])
         (endLine record)).

(** A record whose window is the one of a confirmed hit of [infos] in the
    file read for it. *)
Definition window_of_hit (h : Host) (infos : list ReferenceInfo) (record : Refs) : Prop :=
  exists ri c,
    In ri infos /\ hitConfirmed ri = true /\ readFileSync h (file ri) = Some c /\
    startLine record = window_startLine (line (position ri)) /\
    endLine record = window_endLine (Js.split c) (line (position ri)).

(** The hit's line exists in the file read for it. *)
Definition line_in_file (h : Host) (ri : ReferenceInfo) : Prop :=
  forall c, readFileSync h (file ri) = Some c ->
    (Z.of_N (line (position ri)) < Z.of_nat (List.length (Js.split c)))%Z.

(** The record the callback pushes for a hit of [fileContent] when the
    first workspace folder is [folder]: the object literal of the source
    with its five fields. *)
Definition record_of (folder : Uri) (fileContent : string) (ri : ReferenceInfo) : Refs :=
  mkRefs
    (Js.join (Js.slice (Js.split fileContent)
                (window_startLine (line (position ri)))
                (window_endLine (Js.split fileContent) (line (position ri)))))
    (getRelativePathFromUri folder (file ri))
    (window_startLine (line (position ri)))
    (window_endLine (Js.split fileContent) (line (position ri)))
    (QArith_base.Qmake 1 1).

(** A record that is the record of a confirmed hit of [infos], for the
    content read for the hit and the first workspace folder. *)
Definition record_of_hit (h : Host) (infos : list ReferenceInfo) (record : Refs) : Prop :=
  exists ri c folder rest,
    In ri infos /\ hitConfirmed ri = true /\ readFileSync h (file ri) = Some c /\
    workspaceFolders h = folder :: rest /\
    record = record_of folder c ri.

(** A confirmed hit below line 10 of its file: its window does not start
    at line 0. *)
Definition beyondHalfWindow (ri : ReferenceInfo) : bool :=
  hitConfirmed ri && (10 <? line (position ri))%N.

(** The calls a run of the provider adds to the log can only be one of
    these four sequences after the prologue. *)
Inductive epilogue (h : Host) : list Call -> Prop :=
| epilogue_rethrown : epilogue h []
| epilogue_loop_threw : epilogue h teardown
| epilogue_reset : epilogue h (teardown ++ [resetReferences])
| epilogue_panel r :
    remote h = Resolved (Some r) ->
    epilogue h (teardown ++ [showResultsInPanelView r]).

(** The window of the hit in the file read for it is not inverted: the
    hit's line is at most 10 lines past the number of lines of the file, so
    the window does not start after its end. *)
Definition window_not_inverted (h : Host) (ri : ReferenceInfo) : Prop :=
  forall c, readFileSync h (file ri) = Some c ->
    (Z.of_N (line (position ri)) - 10 <= Z.of_nat (List.length (Js.split c)))%Z.

End Provider.

(** A string without a line feed. *)
Fixpoint no_newline (s : string) : Prop :=
  match s with
  | EmptyString => True
  | String c s' => c <> Js.newline /\ no_newline s'
  end.

(** ** A concrete host

    Used to run the provider on explicit inputs: a URI is the string
    ["file://" ++ path], the error codes are those of the protocol, the
    workspace has one root [/ws] and the file system is an association
    list from paths to contents. *)

Module Scenario.

Local Open Scope string_scope.

Definition Uri : Type := string.
Definition Uri_file (path : string) : Uri := append "file://" path.
Definition Uri_toString (u : Uri) : string := u.
Definition RequestCancelled : Z := (-32800)%Z.
Definition ServerCancelled : Z := (-32802)%Z.

Definition root : Uri := "file:///ws".

(** A file of [n + 1] empty lines. *)
Fixpoint blank_lines (n : nat) : string :=
  match n with
  | O => EmptyString
  | S n' => String Js.newline (blank_lines n')
  end.

Fixpoint lookup (disk : list (string * string)) (path : string) : option string :=
  match disk with
  | [] => None
  | (p, content) :: rest => if String.eqb p path then Some content else lookup rest path
  end.

Definition host (disk : list (string * string)) (s : Settled) (tokenFired broadcastFired : bool)
    : Host Uri :=
  mkHost s tokenFired broadcastFired (lookup disk) [root].

Definition provide (h : Host Uri) (document : TextDocument) (position : Position)
    : Prog (option (list (Location Uri))) :=
  provideReferences Uri_file Uri_toString RequestCancelled ServerCancelled h document position.

Definition world0 : World := mkWorld [] None.

Definition document : TextDocument := mkTextDocument "file:///ws/a.c".

Definition hit (path : string) (l c : N) : ReferenceInfo :=
  mkReferenceInfo path (mkPosition l c) Confirmed.

(** Three confirmed hits at lines 5, 8 and 40 of a file of 100 lines. *)
Definition disk_100 : list (string * string) := [("/ws/a.c", blank_lines 99)].

Definition response_5_8_40 : ReferencesResult :=
  mkReferencesResult [hit "/ws/a.c" 5 2; hit "/ws/a.c" 8 4; hit "/ws/a.c" 40 0] "foo" false.

Definition host_5_8_40 : Host Uri :=
  host disk_100 (Resolved (Some response_5_8_40)) false false.

Definition position0 : Position := mkPosition 1 1.

(** The request fails with the protocol's InternalError. *)
Definition internal_error : JsError := ResponseError (-32603)%Z "Internal error".

Definition host_internal_error : Host Uri :=
  host disk_100 (Rejected internal_error) false false.

(** The request fails because a newer request superseded it. *)
Definition host_request_cancelled : Host Uri :=
  host disk_100 (Rejected (ResponseError RequestCancelled "Request cancelled")) false false.

(** The server answers with hits and says it was cancelled. *)
Definition response_canceled_with_hits : ReferencesResult :=
  mkReferencesResult [hit "/ws/a.c" 40 0] "foo" true.

Definition host_canceled_with_hits : Host Uri :=
  host disk_100 (Resolved (Some response_canceled_with_hits)) false false.



(** The server places a hit at line 100 of a file that has 5 lines on
    disk, between two hits at lines 50 and 52 of a file of 100 lines. *)
Definition disk_stale : list (string * string) :=
  [("/ws/a.c", blank_lines 99); ("/ws/b.c", blank_lines 4)].

Definition response_stale : ReferencesResult :=
  mkReferencesResult [hit "/ws/a.c" 50 0; hit "/ws/b.c" 100 0; hit "/ws/a.c" 52 0]
    "foo" false.

Definition host_stale : Host Uri :=
  host disk_stale (Resolved (Some response_stale)) false false.

Definition window (r : Refs) : Z * Z := (startLine r, endLine r).


(** Text files with distinguishable lines. *)
Definition file_of_lines (lines : list string) : string := Js.join lines.

Definition numbered_12 : list string :=
  ["l0"; "l1"; "l2"; "l3"; "l4"; "l5"; "l6"; "l7"; "l8"; "l9"; "l10"; "l11"].

Definition disk_numbered : list (string * string) :=
  [("/ws/n.c", file_of_lines numbered_12); ("/ws/a.c", blank_lines 99)].

Definition response_numbered : ReferencesResult :=
  mkReferencesResult [hit "/ws/n.c" 11 0] "foo" false.

Definition host_numbered : Host Uri :=
  host disk_numbered (Resolved (Some response_numbered)) false false.



(** No workspace folder is open. *)
Definition host_no_folder (r : ReferencesResult) : Host Uri :=
  mkHost (Resolved (Some r)) false false (lookup disk_100) [].

Definition response_near_top : ReferencesResult :=
  mkReferencesResult [hit "/ws/a.c" 5 2; hit "/ws/a.c" 8 4] "foo" false.

(** A hit of another classification in a file that cannot be read, between
    two confirmed hits. *)
Definition response_mixed : ReferencesResult :=
  mkReferencesResult
    [hit "/ws/a.c" 40 0;
     mkReferenceInfo "/ws/gone.c" (mkPosition 3 0) (NonConfirmed 2);
     hit "/ws/a.c" 80 0] "foo" false.

Definition host_mixed : Host Uri :=
  host disk_100 (Resolved (Some response_mixed)) false false.

(** The same disk with the unreadable file present. *)
Definition host_mixed_restored : Host Uri :=
  host (("/ws/gone.c", blank_lines 9) :: disk_100) (Resolved (Some response_mixed))
    false false.

(** Two hits in different files whose windows meet. *)
Definition disk_two_files : list (string * string) :=
  [("/ws/a.c", blank_lines 99); ("/ws/b.c", blank_lines 199)].

Definition response_two_files : ReferencesResult :=
  mkReferencesResult [hit "/ws/a.c" 40 0; hit "/ws/b.c" 55 0] "foo" false.

Definition host_two_files : Host Uri :=
  host disk_two_files (Resolved (Some response_two_files)) false false.




(** Four confirmed hits in the file of 100 lines: the second falls in the
    window of the first, the last lies 5 lines past the end of the file. *)
Definition response_three_records : ReferencesResult :=
  mkReferencesResult
    [hit "/ws/a.c" 40 0; hit "/ws/a.c" 45 0; hit "/ws/a.c" 80 0; hit "/ws/a.c" 105 0]
    "foo" false.

Definition host_three_records : Host Uri :=
  host disk_100 (Resolved (Some response_three_records)) false false.

End Scenario.

(** * Properties *)

Section Properties.

Variable Uri : Type.
Variable Uri_file : string -> Uri.
Variable Uri_toString : Uri -> string.
Variable RequestCancelled : Z.
Variable ServerCancelled : Z.

Local Abbreviation provideReferences' :=
  (provideReferences Uri_file Uri_toString RequestCancelled ServerCancelled).
Local Abbreviation forEach' := (forEach Uri_file Uri_toString).
Local Abbreviation forEach_callback' := (forEach_callback Uri_file Uri_toString).
Local Abbreviation isCancellationError' := (isCancellationError RequestCancelled ServerCancelled).
Local Abbreviation getRelativePathFromUri' := (getRelativePathFromUri Uri_file Uri_toString).
Local Abbreviation location_of' := (location_of Uri_file).
Local Abbreviation closure0' := (closure0 Uri).
Local Abbreviation turn' := (turn Uri_file).

(** ** The paths through provideReferences *)

Ltac run_provider :=
  unfold provideReferences, languageClient_sendRequest, bind, try_catch, call, setEnv,
    ret, throw, lift, prologue, teardown; simpl.

Ltac tidy_log := simpl; repeat rewrite <- app_assoc; simpl.

(** Closes the conditions of the callback lemmas at a literal hit. *)
Ltac side_condition :=
  first [ reflexivity | assumption | (vm_compute; congruence) ].

Lemma provideReferences_rethrown (h : Host Uri) d p w e :
  remote h = Rejected e ->
  isCancellationError' e = false ->
  provideReferences' h d p w
  = (mkWorld (calls w ++ prologue d p) (env_REFERENCED_SYMBOL_SNIPPET w), inl e).
Proof.
  intros Hr He. run_provider. rewrite Hr. simpl. rewrite He. tidy_log. reflexivity.
Qed.

Lemma provideReferences_cancellation_error (h : Host Uri) d p w e :
  remote h = Rejected e ->
  isCancellationError' e = true ->
  provideReferences' h d p w
  = (mkWorld (calls w ++ prologue d p ++ teardown ++ [resetReferences]) (Some []),
     inr None).
Proof.
  intros Hr He. run_provider. rewrite Hr. simpl. rewrite He. simpl.
  rewrite orb_true_r. tidy_log. reflexivity.
Qed.

Lemma provideReferences_token_cancelled (h : Host Uri) d p w response :
  remote h = Resolved response ->
  isCancellationRequested h = true ->
  provideReferences' h d p w
  = (mkWorld (calls w ++ prologue d p ++ teardown ++ [resetReferences]) (Some []),
     inr None).
Proof.
  intros Hr Hc. run_provider. rewrite Hr. simpl. rewrite Hc. tidy_log. reflexivity.
Qed.

Lemma provideReferences_isCanceled (h : Host Uri) d p w r :
  remote h = Resolved (Some r) ->
  isCanceled r = true ->
  provideReferences' h d p w
  = (mkWorld (calls w ++ prologue d p ++ teardown ++ [resetReferences]) (Some []),
     inr None).
Proof.
  intros Hr Hc. run_provider. rewrite Hr. simpl. rewrite Hc.
  rewrite orb_true_r. tidy_log. reflexivity.
Qed.

Lemma provideReferences_undefined_response (h : Host Uri) d p w :
  remote h = Resolved None ->
  isCancellationRequested h = false ->
  provideReferences' h d p w
  = (mkWorld (calls w ++ prologue d p ++ teardown ++ [resetReferences]) (Some []),
     inr (Some [])).
Proof.
  intros Hr Hc. run_provider. rewrite Hr. simpl. rewrite Hc. tidy_log. reflexivity.
Qed.

Lemma provideReferences_no_hits (h : Host Uri) d p w r :
  remote h = Resolved (Some r) ->
  isCancellationRequested h = false ->
  isCanceled r = false ->
  referenceInfos r = [] ->
  provideReferences' h d p w
  = (mkWorld (calls w ++ prologue d p ++ teardown ++ [resetReferences]) (Some []),
     inr (Some [])).
Proof.
  intros Hr Hc Hi Hn. run_provider. rewrite Hr. simpl. rewrite Hc, Hi, Hn.
  tidy_log. reflexivity.
Qed.

Lemma provideReferences_hits (h : Host Uri) d p w r :
  remote h = Resolved (Some r) ->
  isCancellationRequested h = false ->
  isCanceled r = false ->
  referenceInfos r <> [] ->
  provideReferences' h d p w
  = match forEach' h r (referenceInfos r) closure0' with
    | inl e => (mkWorld (calls w ++ prologue d p ++ teardown) (Some []), inl e)
    | inr st =>
        (mkWorld (calls w ++ prologue d p ++ teardown ++ [showResultsInPanelView r])
           (Some (refs st)),
         inr (Some (locationsResult st)))
    end.
Proof.
  intros Hr Hc Hi Hn. run_provider. rewrite Hr. simpl. rewrite Hc, Hi. simpl.
  destruct (referenceInfos r) as [|ri rest] eqn:E; [congruence|].
  change (0 <? List.length (ri :: rest))%nat with true. cbv iota.
  unfold closure0.
  destruct (forEach' h r (ri :: rest) (mkClosure [] [] 0%Z)) as [e|st];
    tidy_log; reflexivity.
Qed.


(** ** The callback of the loop *)

Lemma half_window : (SnippetWindowSize / 2 = 10)%Z.
Proof. reflexivity. Qed.

Lemma range_of_eq (r : ReferencesResult) (ri : ReferenceInfo) :
  mkRange
    (mkPosition (line (position ri)) (character (position ri)))
    (mkPosition (line (position ri))
       (character (position ri) + N.of_nat (String.length (text r))))
  = range_of (String.length (text r)) ri.
Proof. unfold range_of. destruct (position ri); reflexivity. Qed.

Lemma forEach_callback_other (h : Host Uri) r st ri :
  hitConfirmed ri = false ->
  forEach_callback' h r st ri = inr st.
Proof.
  unfold hitConfirmed, forEach_callback. destruct (type ri); simpl; [discriminate|reflexivity].
Qed.

Lemma forEach_callback_unreadable (h : Host Uri) r st ri :
  hitConfirmed ri = true ->
  readFileSync h (file ri) = None ->
  forEach_callback' h r st ri = inl (FileReadError (file ri)).
Proof.
  unfold hitConfirmed, forEach_callback. destruct (type ri); simpl; [|discriminate].
  intros _ Hf. rewrite Hf. reflexivity.
Qed.

Lemma forEach_callback_suppressed (h : Host Uri) r st ri c :
  hitConfirmed ri = true ->
  readFileSync h (file ri) = Some c ->
  (window_startLine (line (position ri)) <= preventOverlappingSnippet st)%Z ->
  forEach_callback' h r st ri
  = inr (mkClosure (locationsResult st ++ [location_of' r ri]) (refs st)
           (preventOverlappingSnippet st)).
Proof.
  unfold hitConfirmed, forEach_callback. destruct (type ri); simpl; [|discriminate].
  intros _ Hf Hle. rewrite Hf.
  destruct (Z.gtb_spec (window_startLine (line (position ri))) (preventOverlappingSnippet st));
    [lia|].
  unfold location_of. rewrite range_of_eq. reflexivity.
Qed.

Lemma forEach_callback_emitted (h : Host Uri) r st ri c folder rest :
  hitConfirmed ri = true ->
  readFileSync h (file ri) = Some c ->
  workspaceFolders h = folder :: rest ->
  (preventOverlappingSnippet st < window_startLine (line (position ri)))%Z ->
  forEach_callback' h r st ri
  = inr (mkClosure (locationsResult st ++ [location_of' r ri])
           (refs st ++
              [mkRefs
                 (Js.join (Js.slice (Js.split c)
                             (window_startLine (line (position ri)))
                             (window_endLine (Js.split c) (line (position ri)))))
                 (getRelativePathFromUri' folder (file ri))
                 (window_startLine (line (position ri)))
                 (window_endLine (Js.split c) (line (position ri)))
                 (QArith_base.Qmake 1 1)])
           (window_endLine (Js.split c) (line (position ri)))).
Proof.
  unfold hitConfirmed, forEach_callback. destruct (type ri); simpl; [|discriminate].
  intros _ Hf Hw Hlt. rewrite Hf, Hw.
  destruct (Z.gtb_spec (window_startLine (line (position ri))) (preventOverlappingSnippet st));
    [|lia].
  unfold location_of. rewrite range_of_eq. reflexivity.
Qed.

Lemma forEach_callback_no_folder (h : Host Uri) r st ri c :
  hitConfirmed ri = true ->
  readFileSync h (file ri) = Some c ->
  workspaceFolders h = [] ->
  (preventOverlappingSnippet st < window_startLine (line (position ri)))%Z ->
  exists e, forEach_callback' h r st ri = inl e.
Proof.
  unfold hitConfirmed, forEach_callback. destruct (type ri); simpl; [|discriminate].
  intros _ Hf Hw Hlt. rewrite Hf, Hw.
  destruct (Z.gtb_spec (window_startLine (line (position ri))) (preventOverlappingSnippet st));
    [|lia].
  eexists. reflexivity.
Qed.

Lemma forEach_callback_turn (h : Host Uri) r st ri st' :
  forEach_callback' h r st ri = inr st' -> turn' h r ri st st'.
Proof.
  intros H.
  destruct (hitConfirmed ri) eqn:Hc.
  2:{ rewrite forEach_callback_other in H by assumption.
      injection H as <-. now apply turn_skip. }
  destruct (readFileSync h (file ri)) as [c|] eqn:Hf.
  2:{ rewrite forEach_callback_unreadable in H by assumption. discriminate. }
  destruct (Z_le_gt_dec (window_startLine (line (position ri))) (preventOverlappingSnippet st))
    as [Hle|Hgt].
  - rewrite (forEach_callback_suppressed h r st ri Hc Hf Hle) in H.
    injection H as <-. eapply turn_suppress; eassumption.
  - destruct (workspaceFolders h) as [|folder rest] eqn:Hw.
    + destruct (@forEach_callback_no_folder h r st ri c Hc Hf Hw) as [e He]; [lia|].
      congruence.
    + rewrite (@forEach_callback_emitted h r st ri c folder rest Hc Hf Hw) in H by lia.
      injection H as <-.
      match goal with |- turn _ _ _ _ _ (mkClosure _ (_ ++ [?rec]) _) =>
        apply (@turn_emit _ Uri_file h r ri st c rec) end; simpl; auto; lia.
Qed.


(** ** The loop *)

Lemma forEach_app (h : Host Uri) r infos1 infos2 st :
  forEach' h r (infos1 ++ infos2) st
  = match forEach' h r infos1 st with
    | inl e => inl e
    | inr st' => forEach' h r infos2 st'
    end.
Proof.
  revert st. induction infos1 as [|ri infos1 IH]; intros st; simpl; [reflexivity|].
  destruct (forEach_callback' h r st ri); [reflexivity|apply IH].
Qed.

Lemma forEach_locations (h : Host Uri) r infos : forall st st',
  forEach' h r infos st = inr st' ->
  locationsResult st'
  = locationsResult st ++ map (location_of' r) (filter hitConfirmed infos).
Proof.
  induction infos as [|ri infos IH]; intros st st' H; simpl in H.
  - injection H as <-. simpl. now rewrite app_nil_r.
  - destruct (forEach_callback' h r st ri) as [e|st1] eqn:E; [discriminate|].
    apply forEach_callback_turn in E. rewrite (IH _ _ H). simpl.
    destruct E as [Hc|c Hc _ _|c record Hc _ _ _ _]; rewrite Hc; simpl;
      [reflexivity| |]; now rewrite <- app_assoc.
Qed.

Lemma forEach_returns (h : Host Uri) r infos :
  (forall ri, In ri infos -> hitConfirmed ri = true -> readFileSync h (file ri) <> None) ->
  workspaceFolders h <> [] ->
  forall st, exists st', forEach' h r infos st = inr st'.
Proof.
  intros Hread Hroot. induction infos as [|ri infos IH]; intros st; simpl.
  - now exists st.
  - assert (exists st1, forEach_callback' h r st ri = inr st1) as [st1 E].
    { destruct (hitConfirmed ri) eqn:Hc.
      2:{ exists st. now apply forEach_callback_other. }
      destruct (readFileSync h (file ri)) as [c|] eqn:Hf.
      2:{ exfalso. apply (Hread ri); simpl; auto. }
      destruct (Z_le_gt_dec (window_startLine (line (position ri)))
                  (preventOverlappingSnippet st)) as [Hle|Hgt].
      - eexists. now apply forEach_callback_suppressed with c.
      - destruct (workspaceFolders h) as [|folder rest] eqn:Hw; [congruence|].
        eexists. apply forEach_callback_emitted with (c := c) (folder := folder) (rest := rest);
          auto; lia. }
    rewrite E. apply IH. intros ri' Hin. apply Hread. now right.
Qed.

Lemma emitted_after_app cursor l1 l2 :
  emitted_after cursor l1 ->
  emitted_after (cursor_after cursor l1) l2 ->
  emitted_after cursor (l1 ++ l2).
Proof.
  revert cursor. induction l1 as [|r l1 IH]; intros cursor H1 H2; simpl in *; [assumption|].
  destruct H1 as [Hlt H1]. split; [assumption|]. now apply IH.
Qed.

Lemma cursor_after_app cursor l1 l2 :
  cursor_after cursor (l1 ++ l2) = cursor_after (cursor_after cursor l1) l2.
Proof.
  revert cursor. induction l1 as [|r l1 IH]; intros cursor; simpl; [reflexivity|apply IH].
Qed.

Lemma window_of_hit_cons (h : Host Uri) ri infos record :
  window_of_hit h infos record -> window_of_hit h (ri :: infos) record.
Proof.
  intros (ri' & c & Hin & H). exists ri', c. split; [now right|assumption].
Qed.

(** The records pushed by a run of the loop: they come after what was
    there, obey the cursor, are no more than the confirmed hits, and each
    carries the window of one of them. *)
Lemma forEach_records (h : Host Uri) r infos : forall st st',
  forEach' h r infos st = inr st' ->
  exists pushed,
    refs st' = refs st ++ pushed /\
    emitted_after (preventOverlappingSnippet st) pushed /\
    preventOverlappingSnippet st' = cursor_after (preventOverlappingSnippet st) pushed /\
    (List.length pushed <= List.length (filter hitConfirmed infos))%nat /\
    Forall (window_of_hit h infos) pushed.
Proof.
  induction infos as [|ri infos IH]; intros st st' H; simpl in H.
  - injection H as <-. exists []. simpl. rewrite app_nil_r. repeat split; auto.
  - destruct (forEach_callback' h r st ri) as [e|st1] eqn:E; [discriminate|].
    apply forEach_callback_turn in E.
    destruct (IH _ _ H) as (pushed & Hrefs & Hafter & Hcur & Hlen & Hwin).
    assert (Hwin' : Forall (window_of_hit h (ri :: infos)) pushed).
    { eapply Forall_impl; [|exact Hwin]. intros a. apply window_of_hit_cons. }
    destruct E as [Hc|c Hc Hf Hle|c record Hc Hf Hlt Hs He]; simpl in *.
    + exists pushed. rewrite Hc. repeat split; auto.
    + exists pushed. rewrite Hc. simpl. repeat split; auto.
    + exists (record :: pushed). rewrite Hc. simpl.
      rewrite Hrefs, <- app_assoc. simpl. repeat split; auto; try lia.
      constructor; [|assumption].
      exists ri, c. simpl. auto.
Qed.

(** ** Windows that obey the cursor *)

Lemma emitted_after_lower_bound cursor records :
  emitted_after cursor records ->
  Forall (fun r => (startLine r <= endLine r)%Z) records ->
  Forall (fun r => (cursor < startLine r)%Z) records.
Proof.
  revert cursor. induction records as [|r records IH]; intros cursor Hafter Hwf;
    [constructor|].
  simpl in Hafter. destruct Hafter as [Hlt Hafter].
  inversion Hwf as [|? ? Hr Hrest]; subst.
  constructor; [assumption|].
  eapply Forall_impl; [|apply (IH _ Hafter Hrest)]. simpl. intros a Ha. lia.
Qed.

Lemma emitted_after_separated cursor records :
  emitted_after cursor records ->
  Forall (fun r => (startLine r <= endLine r)%Z) records ->
  ForallOrdPairs (fun r1 r2 => (endLine r1 < startLine r2)%Z) records.
Proof.
  revert cursor. induction records as [|r records IH]; intros cursor Hafter Hwf;
    [constructor|].
  simpl in Hafter. destruct Hafter as [Hlt Hafter].
  inversion Hwf as [|? ? Hr Hrest]; subst.
  constructor.
  - now apply emitted_after_lower_bound.
  - now apply (IH (endLine r)).
Qed.

Lemma ForallOrdPairs_impl {A : Type} (P Q : A -> A -> Prop) (l : list A) :
  (forall a b, In a l -> In b l -> P a b -> Q a b) ->
  ForallOrdPairs P l -> ForallOrdPairs Q l.
Proof.
  intros HPQ H. induction H as [|a l Ha Hl IH]; constructor.
  - rewrite Forall_forall in *. intros b Hb. apply HPQ; simpl; auto.
  - apply IH. intros x y Hx Hy. apply HPQ; simpl; auto.
Qed.

Lemma window_of_hit_ordered (h : Host Uri) infos record :
  (forall ri, In ri infos -> hitConfirmed ri = true -> line_in_file h ri) ->
  window_of_hit h infos record ->
  (startLine record < endLine record)%Z.
Proof.
  intros Hin (ri & c & Hri & Hc & Hf & Hs & He).
  specialize (Hin ri Hri Hc c Hf).
  rewrite Hs, He. unfold window_startLine, window_endLine. rewrite half_window. lia.
Qed.



Lemma window_startLine_low (l : N) :
  (l <= 10)%N -> window_startLine l = 0%Z.
Proof. unfold window_startLine. rewrite half_window. lia. Qed.

Lemma window_startLine_high (l : N) :
  (10 <= l)%N -> window_startLine l = (Z.of_N l - 10)%Z.
Proof. unfold window_startLine. rewrite half_window. lia. Qed.

Lemma window_endLine_eq (lines : list string) (l : N) :
  window_endLine lines l = Z.min (Z.of_nat (List.length lines)) (Z.of_N l + 10).
Proof. unfold window_endLine. now rewrite half_window. Qed.

(** ** The scenario of three hits *)

(** C1, as the code has it: for three confirmed hits at lines 5, 8 and 40
    of one file of 100 lines, whatever the columns and the matched text,
    provideReferences returns the three locations in order and publishes
    one snippet record only.  The windows of the hits at lines 5 and 8
    start at line 0, which is not strictly after the cursor's initial value
    0, so both are suppressed; the hit at line 40 has the window [30,50)
    and is emitted. *)
Theorem C1_three_hits_one_snippet (h : Host Uri) d p w f c folder rest c1 c2 c3 txt :
  remote h =
    Resolved (Some (mkReferencesResult
                      [mkReferenceInfo f (mkPosition 5 c1) Confirmed;
                       mkReferenceInfo f (mkPosition 8 c2) Confirmed;
                       mkReferenceInfo f (mkPosition 40 c3) Confirmed] txt false)) ->
  isCancellationRequested h = false ->
  readFileSync h f = Some c ->
  List.length (Js.split c) = 100%nat ->
  workspaceFolders h = folder :: rest ->
  exists w',
    provideReferences' h d p w
    = (w',
       inr (Some
              [mkLocation (Uri_file f)
                 (mkRange (mkPosition 5 c1)
                    (mkPosition 5 (c1 + N.of_nat (String.length txt))));
               mkLocation (Uri_file f)
                 (mkRange (mkPosition 8 c2)
                    (mkPosition 8 (c2 + N.of_nat (String.length txt))));
               mkLocation (Uri_file f)
                 (mkRange (mkPosition 40 c3)
                    (mkPosition 40 (c3 + N.of_nat (String.length txt))))])) /\
    env_REFERENCED_SYMBOL_SNIPPET w'
    = Some [mkRefs (Js.join (Js.slice (Js.split c) 30 50))
              (getRelativePathFromUri' folder f) 30%Z 50%Z (QArith_base.Qmake 1 1)].
Proof.
  intros Hr Hc Hf Hlen Hw.
  rewrite (provideReferences_hits h d p w Hr Hc eq_refl) by (simpl; discriminate).
  simpl referenceInfos. unfold closure0. simpl forEach.
  rewrite (@forEach_callback_suppressed h _ _ _ c) by side_condition.
  simpl.
  rewrite (@forEach_callback_suppressed h _ _ _ c) by side_condition.
  simpl.
  rewrite (@forEach_callback_emitted h _ _ _ c folder rest) by side_condition.
  simpl.
  replace (window_startLine 40) with 30%Z by reflexivity.
  replace (window_endLine (Js.split c) 40) with 50%Z
    by (rewrite window_endLine_eq, Hlen; reflexivity).
  eexists. split; reflexivity.
Qed.

(** ** Cancellation and errors *)

(** Every exit of provideReferences that is not the rethrow has made the
    three teardown calls right after the request. *)
Lemma teardown_unless_rethrown (h : Host Uri) d p w :
  (forall e, remote h = Rejected e -> isCancellationError' e = true) ->
  exists rest,
    calls (fst (provideReferences' h d p w)) = calls w ++ prologue d p ++ teardown ++ rest.
Proof.
  intros Hsettled.
  destruct (remote h) as [response|e] eqn:Hr.
  2:{ rewrite (provideReferences_cancellation_error h d p w Hr (Hsettled e eq_refl)).
      now exists [resetReferences]. }
  destruct (isCancellationRequested h) eqn:Hc.
  { rewrite (provideReferences_token_cancelled h d p w Hr Hc). now exists [resetReferences]. }
  destruct response as [r|].
  2:{ rewrite (provideReferences_undefined_response h d p w Hr Hc).
      now exists [resetReferences]. }
  destruct (isCanceled r) eqn:Hi.
  { rewrite (provideReferences_isCanceled h d p w Hr Hi). now exists [resetReferences]. }
  destruct (referenceInfos r) as [|ri infos] eqn:Hn.
  { rewrite (provideReferences_no_hits h d p w Hr Hc Hi Hn). now exists [resetReferences]. }
  rewrite (provideReferences_hits h d p w Hr Hc Hi) by congruence.
  destruct (forEach' h r (referenceInfos r) closure0') as [e|st]; simpl.
  - exists []. reflexivity.
  - now exists [showResultsInPanelView r].
Qed.

(** When the request fails with an error that is not a recognised
    cancellation, the provider has made the calls of the prologue and no
    other: the error leaves through the handler, ahead of the teardown. *)
Lemma no_teardown_when_rethrown (h : Host Uri) d p w e :
  remote h = Rejected e ->
  isCancellationError' e = false ->
  calls (fst (provideReferences' h d p w)) = calls w ++ prologue d p /\
  snd (provideReferences' h d p w) = inl e.
Proof.
  intros Hr He. rewrite (provideReferences_rethrown h d p w Hr He). split; reflexivity.
Qed.

Lemma isCancellationError_spec (e : JsError) :
  isCancellationError' e = true <->
  exists code message,
    e = ResponseError code message /\ (code = RequestCancelled \/ code = ServerCancelled).
Proof.
  split.
  - destruct e as [code message| | |]; simpl; try discriminate.
    intros H. apply orb_true_iff in H. exists code, message. split; [reflexivity|].
    destruct H as [H|H]; apply Z.eqb_eq in H; auto.
  - intros (code & message & -> & H). simpl. apply orb_true_iff.
    destruct H as [->| ->]; rewrite Z.eqb_refl; auto.
Qed.

(** C3: when the request throws a ResponseError whose code is
    RequestCancelled or ServerCancelled, provideReferences returns
    undefined and no error reaches the caller; when it throws anything
    else, the caller receives that very error. *)
Theorem C3_cancellation_errors_absorbed_others_rethrown (h : Host Uri) d p w e :
  remote h = Rejected e ->
  ((exists code message,
      e = ResponseError code message /\
      (code = RequestCancelled \/ code = ServerCancelled)) ->
   snd (provideReferences' h d p w) = inr None) /\
  (~ (exists code message,
        e = ResponseError code message /\
        (code = RequestCancelled \/ code = ServerCancelled)) ->
   snd (provideReferences' h d p w) = inl e).
Proof.
  intros Hr. split; intros He.
  - apply isCancellationError_spec in He.
    now rewrite (provideReferences_cancellation_error h d p w Hr He).
  - assert (Hf : isCancellationError' e = false).
    { destruct (isCancellationError' e) eqn:E; [|reflexivity].
      exfalso. apply He. now apply isCancellationError_spec. }
    now rewrite (provideReferences_rethrown h d p w Hr Hf).
Qed.

(** C4: once the request has settled without a non-cancellation error, if
    the internal token was cancelled, or a recognised cancellation error
    was caught, or the response says isCanceled (whatever hits it carries),
    then provideReferences returns undefined, its last call is
    resetReferences, it never calls showResultsInPanelView, and the
    published snippet list is empty. *)
Theorem C4_cancelled_query_resets_and_returns_undefined (h : Host Uri) d p w :
  (forall e, remote h = Rejected e -> isCancellationError' e = true) ->
  isCancellationRequested h = true \/
  (exists e, remote h = Rejected e) \/
  (exists r, remote h = Resolved (Some r) /\ isCanceled r = true) ->
  provideReferences' h d p w
  = (mkWorld (calls w ++ prologue d p ++ teardown ++ [resetReferences]) (Some []),
     inr None) /\
  existsb is_showResultsInPanelView (prologue d p ++ teardown ++ [resetReferences]) = false.
Proof.
  intros Hsettled Hcond. split; [|reflexivity].
  destruct (remote h) as [response|e] eqn:Hr.
  - destruct Hcond as [Hc|[[e He]|(r & Hrr & Hi)]].
    + now apply provideReferences_token_cancelled with response.
    + discriminate.
    + injection Hrr as ->. now apply provideReferences_isCanceled with r.
  - apply provideReferences_cancellation_error with e; auto.
Qed.



(** ** Locations *)

(** C6: for a query that is not cancelled, whenever provideReferences
    returns a location list it is the list of the locations of the
    confirmed hits, one for each, in the order of the response, the range
    of each going from the hit's position to the same position moved right
    by the length of the matched text on the hit's line; hits of any other
    classification contribute nothing.  It does return when the files of
    the confirmed hits can be read and the workspace has a root. *)
Theorem C6_one_location_per_confirmed_hit (h : Host Uri) d p w r :
  remote h = Resolved (Some r) ->
  isCancellationRequested h = false ->
  isCanceled r = false ->
  (forall locs,
     snd (provideReferences' h d p w) = inr (Some locs) ->
     locs = map (location_of' r) (filter hitConfirmed (referenceInfos r))) /\
  ((forall ri, In ri (referenceInfos r) -> hitConfirmed ri = true ->
      readFileSync h (file ri) <> None) ->
   workspaceFolders h <> [] ->
   snd (provideReferences' h d p w)
   = inr (Some (map (location_of' r) (filter hitConfirmed (referenceInfos r))))) /\
  (forall ri,
     location_of' r ri
     = mkLocation (Uri_file (file ri))
         (mkRange (position ri)
            (mkPosition (line (position ri))
               (character (position ri) + N.of_nat (String.length (text r)))))).
Proof.
  intros Hr Hc Hi.
  destruct (referenceInfos r) as [|ri0 infos0] eqn:Hn.
  - rewrite (provideReferences_no_hits h d p w Hr Hc Hi Hn). simpl.
    repeat split; [intros locs H; congruence].
  - rewrite (provideReferences_hits h d p w Hr Hc Hi) by congruence.
    rewrite Hn. repeat split.
    + intros locs H.
      destruct (forEach' h r (ri0 :: infos0) closure0') as [e|st] eqn:E;
        simpl in H; [discriminate|].
      apply forEach_locations in E. injection H as <-. exact E.
    + intros Hread Hroot.
      destruct (forEach_returns h r (ri0 :: infos0) Hread Hroot closure0') as [st E].
      rewrite E. simpl. apply forEach_locations in E. rewrite E. reflexivity.
Qed.

(** ** Snippet windows *)

(** C8: for a confirmed hit at line L whose file has N lines, the window
    runs from max(0, L - 10) to min(N, L + 10): it starts at or after line
    0, ends at or before line N and spans at most 20 lines.  The callback
    always pushes the hit's location; it pushes a record carrying that
    window, the lines of the window joined, and moves the cursor to the
    window's end exactly when the window starts strictly after the cursor. *)
Theorem C8_window_ten_above_ten_below (h : Host Uri) r st ri c folder rest (L N s e : Z) :
  type ri = Confirmed ->
  readFileSync h (file ri) = Some c ->
  workspaceFolders h = folder :: rest ->
  L = Z.of_N (line (position ri)) ->
  N = Z.of_nat (List.length (Js.split c)) ->
  s = Z.max 0 (L - 10) ->
  e = Z.min N (L + 10) ->
  (0 <= s /\ e <= N /\ e - s <= 20)%Z /\
  forEach_callback' h r st ri
  = inr (if (s >? preventOverlappingSnippet st)%Z
         then mkClosure (locationsResult st ++ [location_of' r ri])
                (refs st ++
                   [mkRefs (Js.join (Js.slice (Js.split c) s e))
                      (getRelativePathFromUri' folder (file ri)) s e
                      (QArith_base.Qmake 1 1)])
                e
         else mkClosure (locationsResult st ++ [location_of' r ri]) (refs st)
                (preventOverlappingSnippet st)).
Proof.
  intros Ht Hf Hw -> -> -> ->.
  assert (Hc : hitConfirmed ri = true) by (unfold hitConfirmed; now rewrite Ht).
  split; [lia|].
  rewrite <- window_endLine_eq.
  replace (Z.max 0 (Z.of_N (line (position ri)) - 10))
    with (window_startLine (line (position ri)))
    by (unfold window_startLine; now rewrite half_window).
  destruct (Z.gtb_spec (window_startLine (line (position ri)))
              (preventOverlappingSnippet st)) as [Hgt|Hle].
  - now apply forEach_callback_emitted with (rest := rest).
  - now apply forEach_callback_suppressed with c.
Qed.

Lemma window_of_hit_not_inverted (h : Host Uri) infos record :
  (forall ri, In ri infos -> hitConfirmed ri = true -> window_not_inverted h ri) ->
  window_of_hit h infos record ->
  (startLine record <= endLine record)%Z.
Proof.
  intros Hin (ri & c & Hri & Hc & Hf & Hs & He).
  specialize (Hin ri Hri Hc c Hf).
  rewrite Hs, He. unfold window_startLine, window_endLine. rewrite half_window. lia.
Qed.

(** C7, as the code has it: the records published by the loop are no more
    than the confirmed hits; each starts strictly after the cursor left by
    the one before it (0 for the first) and leaves the cursor at its own
    end; and when no confirmed hit has an inverted window, that is when the
    line of each is at most 10 past the number of lines of the file read
    for it, the windows of the records are pairwise disjoint and their
    start lines strictly increase. *)
Theorem C7_records_obey_cursor (h : Host Uri) r infos st' :
  forEach' h r infos closure0' = inr st' ->
  (List.length (refs st') <= List.length (filter hitConfirmed infos))%nat /\
  emitted_after 0 (refs st') /\
  preventOverlappingSnippet st' = cursor_after 0 (refs st') /\
  ((forall ri, In ri infos -> hitConfirmed ri = true -> window_not_inverted h ri) ->
   ForallOrdPairs windows_disjoint (refs st') /\
   ForallOrdPairs (fun r1 r2 => (startLine r1 < startLine r2)%Z) (refs st')).
Proof.
  intros H.
  destruct (forEach_records h r infos closure0' H)
    as (pushed & Hrefs & Hafter & Hcur & Hlen & Hwin).
  simpl in Hrefs, Hafter, Hcur. rewrite Hrefs.
  split; [assumption|]. split; [assumption|]. split; [assumption|].
  intros Hin.
  assert (Hord : Forall (fun rec => (startLine rec <= endLine rec)%Z) pushed).
  { eapply Forall_impl; [|exact Hwin]. intros rec. now apply window_of_hit_not_inverted. }
  assert (Hsep : ForallOrdPairs (fun r1 r2 => (endLine r1 < startLine r2)%Z) pushed).
  { now apply emitted_after_separated with 0%Z. }
  rewrite Forall_forall in Hord.
  split; (eapply ForallOrdPairs_impl; [|exact Hsep]); simpl.
  - intros a b _ _ Hab x [[_ Ha] [Hb _]]. lia.
  - intros a b Ha _ Hab. specialize (Hord a Ha). simpl in Hord. lia.
Qed.


Lemma cursor_after_nonneg cursor records :
  (0 <= cursor)%Z ->
  Forall (fun r => (0 <= endLine r)%Z) records ->
  (0 <= cursor_after cursor records)%Z.
Proof.
  revert cursor. induction records as [|r records IH]; intros cursor Hc Hr; simpl;
    [assumption|].
  inversion Hr; subst. now apply IH.
Qed.

(** The cursor never goes below 0 in a run that starts at or above 0. *)
Lemma forEach_cursor_nonneg (h : Host Uri) r infos st st' :
  (0 <= preventOverlappingSnippet st)%Z ->
  forEach' h r infos st = inr st' ->
  (0 <= preventOverlappingSnippet st')%Z.
Proof.
  intros Hc H.
  destruct (forEach_records h r infos st H) as (pushed & _ & _ & Hcur & _ & Hwin).
  rewrite Hcur. apply cursor_after_nonneg; [assumption|].
  eapply Forall_impl; [|exact Hwin].
  intros rec (ri & c & _ & _ & _ & _ & He). rewrite He, window_endLine_eq. lia.
Qed.

(** C10: a confirmed hit at line 10 or above it in the file has a window
    that starts at line 0, and wherever it comes in the response, first or
    later, the loop pushes its location and no record for it: the records
    and the cursor are as the hits before it left them. *)
Theorem C10_hit_near_top_gets_no_snippet (h : Host Uri) r pre ri st1 :
  type ri = Confirmed ->
  (line (position ri) <= 10)%N ->
  forEach' h r pre closure0' = inr st1 ->
  window_startLine (line (position ri)) = 0%Z /\
  (forall c, readFileSync h (file ri) = Some c ->
     forEach' h r (pre ++ [ri]) closure0'
     = inr (mkClosure (locationsResult st1 ++ [location_of' r ri]) (refs st1)
              (preventOverlappingSnippet st1))) /\
  (readFileSync h (file ri) = None ->
     forEach' h r (pre ++ [ri]) closure0' = inl (FileReadError (file ri))).
Proof.
  intros Ht Hl Hpre.
  assert (Hc : hitConfirmed ri = true) by (unfold hitConfirmed; now rewrite Ht).
  assert (Hs := window_startLine_low Hl).
  assert (Hcur : (0 <= preventOverlappingSnippet st1)%Z).
  { apply (@forEach_cursor_nonneg h r pre closure0' st1); [simpl; lia|assumption]. }
  split; [assumption|]. split.
  - intros c Hf. rewrite forEach_app, Hpre. simpl.
    rewrite (@forEach_callback_suppressed h r st1 ri c) by (auto; lia).
    reflexivity.
  - intros Hf. rewrite forEach_app, Hpre. simpl.
    now rewrite forEach_callback_unreadable.
Qed.

(** ** Relative paths *)

Lemma prefix_substring (p s : string) :
  String.prefix p s = true ->
  s = append p (Js.substring s (String.length p)).
Proof.
  revert s. induction p as [|a p IH]; intros [|b s] H; simpl in *;
    try reflexivity; try discriminate.
  destruct (ascii_dec a b) as [->|]; [|discriminate].
  f_equal. now apply IH.
Qed.

Lemma length_append_one (s : string) (sep : ascii) :
  String.length (append s (String sep EmptyString)) = (String.length s + 1)%nat.
Proof. induction s as [|a s IH]; simpl; [reflexivity|now rewrite IH]. Qed.

Lemma append_one (s t : string) (sep : ascii) :
  append (append s (String sep EmptyString)) t = append s (String sep t).
Proof. induction s as [|a s IH]; simpl; [reflexivity|now rewrite IH]. Qed.

Lemma getRelativePathFromUri_round_trip (basePath : Uri) (f : string) (sep : ascii) :
  String.prefix (append (Uri_toString basePath) (String sep EmptyString))
    (Uri_toString (Uri_file f)) = true ->
  append (Uri_toString basePath) (String sep (getRelativePathFromUri' basePath f))
  = Uri_toString (Uri_file f).
Proof.
  intros H. apply prefix_substring in H.
  rewrite length_append_one, append_one in H.
  unfold getRelativePathFromUri. now rewrite <- H.
Qed.

(** C9: when the URI of a hit's file starts with the URI of the first
    workspace folder followed by a separator, the record pushed for the
    hit stores a relative path which, put after the folder's URI and that
    separator, gives back the URI of the hit's file. *)
Theorem C9_relativePath_round_trip (h : Host Uri) r st ri c folder rest (sep : ascii) :
  type ri = Confirmed ->
  readFileSync h (file ri) = Some c ->
  workspaceFolders h = folder :: rest ->
  (preventOverlappingSnippet st < window_startLine (line (position ri)))%Z ->
  String.prefix (append (Uri_toString folder) (String sep EmptyString))
    (Uri_toString (Uri_file (file ri))) = true ->
  exists st' record,
    forEach_callback' h r st ri = inr st' /\
    refs st' = refs st ++ [record] /\
    relativePath record = getRelativePathFromUri' folder (file ri) /\
    append (Uri_toString folder) (String sep (relativePath record))
    = Uri_toString (Uri_file (file ri)).
Proof.
  intros Ht Hf Hw Hlt Hpre.
  assert (Hc : hitConfirmed ri = true) by (unfold hitConfirmed; now rewrite Ht).
  eexists. eexists. split.
  - apply forEach_callback_emitted with (rest := rest); eassumption.
  - simpl. repeat split. now apply getRelativePathFromUri_round_trip.
Qed.


(** * Further properties of the provider *)

(** ** The shape of a run *)

(** X1: whatever the host, a run of provideReferences adds to the log the
    four calls of the prologue, cancelCurrentReferenceRequest(NewRequest)
    first and the request last, followed by one of four sequences only:
    nothing; the three teardown calls; the teardown and resetReferences;
    the teardown and showResultsInPanelView with the response the request
    resolved with.  So the two calls on the shared reference state never
    both happen, never happen twice, and never come before the teardown. *)
Theorem X1_run_has_one_of_four_shapes (h : Host Uri) d p w :
  exists tail,
    calls (fst (provideReferences' h d p w)) = calls w ++ prologue d p ++ tail /\
    epilogue h tail.
Proof.
  destruct (remote h) as [response|e] eqn:Hr.
  2:{ destruct (isCancellationError' e) eqn:He.
      - rewrite (provideReferences_cancellation_error h d p w Hr He).
        eexists. split; [reflexivity|constructor].
      - rewrite (provideReferences_rethrown h d p w Hr He).
        exists []. split; [reflexivity|constructor]. }
  destruct (isCancellationRequested h) eqn:Hc.
  { rewrite (provideReferences_token_cancelled h d p w Hr Hc).
    eexists. split; [reflexivity|constructor]. }
  destruct response as [r|].
  2:{ rewrite (provideReferences_undefined_response h d p w Hr Hc).
      eexists. split; [reflexivity|constructor]. }
  destruct (isCanceled r) eqn:Hi.
  { rewrite (provideReferences_isCanceled h d p w Hr Hi).
    eexists. split; [reflexivity|constructor]. }
  destruct (referenceInfos r) as [|ri infos] eqn:Hn.
  { rewrite (provideReferences_no_hits h d p w Hr Hc Hi Hn).
    eexists. split; [reflexivity|constructor]. }
  rewrite (provideReferences_hits h d p w Hr Hc Hi) by congruence.
  destruct (forEach' h r (referenceInfos r) closure0') as [e|st]; simpl.
  - exists teardown. split; [reflexivity|constructor].
  - exists (teardown ++ [showResultsInPanelView r]). split; [reflexivity|].
    now constructor.
Qed.

(** X2: provideReferences returns undefined exactly when the request
    settled without a non-cancellation error and the query is cancelled in
    one of the three ways; an empty response, a response without confirmed
    hits or an exception of the loop never gives undefined. *)
Theorem X2_undefined_exactly_when_cancelled (h : Host Uri) d p w :
  snd (provideReferences' h d p w) = inr None <->
  (forall e, remote h = Rejected e -> isCancellationError' e = true) /\
  (isCancellationRequested h = true \/
   (exists e, remote h = Rejected e) \/
   (exists r, remote h = Resolved (Some r) /\ isCanceled r = true)).
Proof.
  split.
  - intros H.
    destruct (remote h) as [response|e] eqn:Hr.
    2:{ destruct (isCancellationError' e) eqn:He.
        - split; [intros e' He'; congruence|]. right. left. now exists e.
        - rewrite (provideReferences_rethrown h d p w Hr He) in H. discriminate. }
    split; [intros e He; discriminate|].
    destruct (isCancellationRequested h) eqn:Hc; [now left|].
    destruct response as [r|].
    2:{ rewrite (provideReferences_undefined_response h d p w Hr Hc) in H.
        discriminate. }
    destruct (isCanceled r) eqn:Hi; [right; right; now exists r|].
    destruct (referenceInfos r) as [|ri infos] eqn:Hn.
    { rewrite (provideReferences_no_hits h d p w Hr Hc Hi Hn) in H. discriminate. }
    rewrite (provideReferences_hits h d p w Hr Hc Hi) in H by congruence.
    destruct (forEach' h r (referenceInfos r) closure0'); discriminate.
  - intros [Hsettled Hcond].
    destruct (remote h) as [response|e] eqn:Hr.
    + destruct Hcond as [Hc|[[e He]|(r & Hrr & Hi)]].
      * now rewrite (provideReferences_token_cancelled h d p w Hr Hc).
      * discriminate.
      * injection Hrr as ->. now rewrite (provideReferences_isCanceled h d p w Hr Hi).
    + now rewrite (provideReferences_cancellation_error h d p w Hr (Hsettled e eq_refl)).
Qed.

(** ** Exceptions of the loop *)


Lemma forEach_callback_no_folder_TypeError (h : Host Uri) r st ri c :
  hitConfirmed ri = true ->
  readFileSync h (file ri) = Some c ->
  workspaceFolders h = [] ->
  (preventOverlappingSnippet st < window_startLine (line (position ri)))%Z ->
  exists message, forEach_callback' h r st ri = inl (TypeError message).
Proof.
  unfold hitConfirmed, forEach_callback. destruct (type ri); simpl; [|discriminate].
  intros _ Hf Hw Hlt. rewrite Hf, Hw.
  destruct (Z.gtb_spec (window_startLine (line (position ri))) (preventOverlappingSnippet st));
    [|lia].
  eexists. reflexivity.
Qed.

Lemma forEach_without_folder (h : Host Uri) r infos :
  workspaceFolders h = [] ->
  (forall ri, In ri infos -> hitConfirmed ri = true -> readFileSync h (file ri) <> None) ->
  forall st, preventOverlappingSnippet st = 0%Z ->
  (existsb beyondHalfWindow infos = false ->
   forEach' h r infos st
   = inr (mkClosure (locationsResult st ++ map (location_of' r) (filter hitConfirmed infos))
            (refs st) 0%Z)) /\
  (existsb beyondHalfWindow infos = true ->
   exists message, forEach' h r infos st = inl (TypeError message)).
Proof.
  intros Hw. induction infos as [|ri infos IH]; intros Hread st Hcur.
  - simpl. split; [intros _|discriminate].
    rewrite app_nil_r. destruct st; simpl in *; now subst.
  - assert (Hread' : forall ri', In ri' infos -> hitConfirmed ri' = true ->
                                 readFileSync h (file ri') <> None).
    { intros ri' Hin. apply Hread. now right. }
    simpl. unfold beyondHalfWindow at 1 3.
    destruct (hitConfirmed ri) eqn:Hconf; simpl.
    2:{ rewrite forEach_callback_other by assumption. now apply IH. }
    destruct (readFileSync h (file ri)) as [c|] eqn:Hf.
    2:{ exfalso. apply (Hread ri); simpl; auto. }
    destruct (N.ltb_spec 10 (line (position ri))) as [Hhigh|Hlow].
    + split; [discriminate|]. intros _.
      destruct (@forEach_callback_no_folder_TypeError h r st ri c Hconf Hf Hw)
        as [message E].
      { rewrite Hcur, window_startLine_high by lia. lia. }
      exists message. now rewrite E.
    + rewrite (@forEach_callback_suppressed h r st ri c Hconf Hf)
        by (rewrite Hcur, window_startLine_low by lia; lia).
      destruct (IH Hread'
                  (mkClosure (locationsResult st ++ [location_of' r ri]) (refs st)
                     (preventOverlappingSnippet st)) Hcur) as [IHlow IHhigh].
      split; [|exact IHhigh].
      intros Hnone. rewrite (IHlow Hnone). simpl. now rewrite <- app_assoc.
Qed.

(** X4: with no workspace folder open, a query whose confirmed hits are
    all readable returns the locations of all of them when every confirmed
    hit is at line 10 or above it, without error; as soon as one confirmed
    hit lies below line 10 the provider throws a TypeError instead, after
    the teardown, without a call on the shared reference state, and
    returns no location at all. *)
Theorem X4_no_workspace_folder (h : Host Uri) d p w r :
  remote h = Resolved (Some r) ->
  isCancellationRequested h = false ->
  isCanceled r = false ->
  workspaceFolders h = [] ->
  (forall ri, In ri (referenceInfos r) -> hitConfirmed ri = true ->
     readFileSync h (file ri) <> None) ->
  (existsb beyondHalfWindow (referenceInfos r) = false ->
   snd (provideReferences' h d p w)
   = inr (Some (map (location_of' r) (filter hitConfirmed (referenceInfos r))))) /\
  (existsb beyondHalfWindow (referenceInfos r) = true ->
   exists message,
     provideReferences' h d p w
     = (mkWorld (calls w ++ prologue d p ++ teardown) (Some []),
        inl (TypeError message))).
Proof.
  intros Hr Hc Hi Hw Hread.
  destruct (forEach_without_folder h r (referenceInfos r) Hw Hread closure0' eq_refl)
    as [Hlow Hhigh].
  split.
  - intros Hnone.
    destruct (referenceInfos r) as [|ri infos] eqn:Hn.
    + now rewrite (provideReferences_no_hits h d p w Hr Hc Hi Hn).
    + rewrite (provideReferences_hits h d p w Hr Hc Hi) by congruence.
      rewrite Hn, (Hlow Hnone). reflexivity.
  - intros Hsome.
    destruct (referenceInfos r) as [|ri infos] eqn:Hn; [discriminate|].
    rewrite (provideReferences_hits h d p w Hr Hc Hi) by congruence.
    destruct (Hhigh Hsome) as [message E]. exists message.
    rewrite Hn, E. reflexivity.
Qed.


(** ** Hits of other classifications *)

Lemma forEach_callback_same_reads (h1 h2 : Host Uri) r st ri :
  workspaceFolders h1 = workspaceFolders h2 ->
  readFileSync h1 (file ri) = readFileSync h2 (file ri) ->
  forEach_callback' h1 r st ri = forEach_callback' h2 r st ri.
Proof.
  intros Hw Hf. unfold forEach_callback. now rewrite Hw, Hf.
Qed.

(** X5: the loop ignores the hits that are not confirmed and never reads
    their files: on two hosts with the same workspace folders that agree
    on the files of the confirmed hits, running the loop on the whole
    response on one and on its confirmed hits alone on the other gives the
    same locations, records and cursor, or the same exception. *)
Theorem X5_unconfirmed_hits_are_ignored (h1 h2 : Host Uri) r infos :
  workspaceFolders h1 = workspaceFolders h2 ->
  (forall ri, In ri infos -> hitConfirmed ri = true ->
     readFileSync h1 (file ri) = readFileSync h2 (file ri)) ->
  forall st,
    forEach' h1 r infos st = forEach' h2 r (filter hitConfirmed infos) st.
Proof.
  intros Hw. induction infos as [|ri infos IH]; intros Hread st; [reflexivity|].
  assert (Hread' : forall ri', In ri' infos -> hitConfirmed ri' = true ->
                               readFileSync h1 (file ri') = readFileSync h2 (file ri')).
  { intros ri' Hin. apply Hread. now right. }
  simpl. destruct (hitConfirmed ri) eqn:Hconf.
  - simpl.
    rewrite (@forEach_callback_same_reads h1 h2 r st ri Hw)
      by (apply Hread; simpl; auto).
    destruct (forEach_callback' h2 r st ri); [reflexivity|now apply IH].
  - rewrite forEach_callback_other by assumption. now apply IH.
Qed.

(** ** Where the records come from *)

Lemma record_of_hit_cons (h : Host Uri) ri infos record :
  record_of_hit Uri_file Uri_toString h infos record ->
  record_of_hit Uri_file Uri_toString h (ri :: infos) record.
Proof.
  intros (ri' & c & folder & rest & Hin & H).
  exists ri', c, folder, rest. split; [now right|assumption].
Qed.

Lemma forEach_records_of_hits (h : Host Uri) r infos : forall st st',
  forEach' h r infos st = inr st' ->
  exists pushed,
    refs st' = refs st ++ pushed /\
    Forall (record_of_hit Uri_file Uri_toString h infos) pushed.
Proof.
  induction infos as [|ri infos IH]; intros st st' H; simpl in H.
  - injection H as <-. exists []. now rewrite app_nil_r.
  - destruct (forEach_callback' h r st ri) as [e|st1] eqn:E; [discriminate|].
    destruct (IH _ _ H) as (pushed & Hrefs & Hall).
    assert (Hall' : Forall (record_of_hit Uri_file Uri_toString h (ri :: infos)) pushed).
    { eapply Forall_impl; [|exact Hall]. intros a. apply record_of_hit_cons. }
    destruct (hitConfirmed ri) eqn:Hconf.
    2:{ rewrite forEach_callback_other in E by assumption. injection E as <-.
        now exists pushed. }
    destruct (readFileSync h (file ri)) as [c|] eqn:Hf.
    2:{ rewrite forEach_callback_unreadable in E by assumption. discriminate. }
    destruct (Z_le_gt_dec (window_startLine (line (position ri)))
                (preventOverlappingSnippet st)) as [Hle|Hgt].
    + rewrite (forEach_callback_suppressed h r st ri Hconf Hf Hle) in E.
      injection E as <-. now exists pushed.
    + destruct (workspaceFolders h) as [|folder rest] eqn:Hw.
      * destruct (@forEach_callback_no_folder h r st ri c Hconf Hf Hw) as [e He];
          [lia|congruence].
      * rewrite (@forEach_callback_emitted h r st ri c folder rest Hconf Hf Hw) in E
          by lia.
        injection E as <-. simpl in Hrefs.
        exists (record_of Uri_file Uri_toString folder c ri :: pushed).
        split; [rewrite Hrefs, <- app_assoc; reflexivity|].
        constructor; [|assumption].
        exists ri, c, folder, rest. simpl. auto.
Qed.

(** X6: every snippet record that provideReferences leaves in the
    environment variable is the record of a confirmed hit of the response:
    the lines of its window in the file read for the hit, the path
    relative to the first workspace folder, the window and the score 1.
    Nothing else is ever published. *)
Theorem X6_published_records_come_from_confirmed_hits (h : Host Uri) d p w r records :
  remote h = Resolved (Some r) ->
  env_REFERENCED_SYMBOL_SNIPPET (fst (provideReferences' h d p w)) = Some records ->
  Forall (record_of_hit Uri_file Uri_toString h (referenceInfos r)) records.
Proof.
  intros Hr Henv.
  destruct (isCancellationRequested h) eqn:Hc.
  { rewrite (provideReferences_token_cancelled h d p w Hr Hc) in Henv.
    injection Henv as <-. constructor. }
  destruct (isCanceled r) eqn:Hi.
  { rewrite (provideReferences_isCanceled h d p w Hr Hi) in Henv.
    injection Henv as <-. constructor. }
  destruct (referenceInfos r) as [|ri infos] eqn:Hn.
  { rewrite (provideReferences_no_hits h d p w Hr Hc Hi Hn) in Henv.
    injection Henv as <-. constructor. }
  rewrite (provideReferences_hits h d p w Hr Hc Hi) in Henv by congruence.
  rewrite Hn in Henv.
  destruct (forEach' h r (ri :: infos) closure0') as [e|st] eqn:E; simpl in Henv;
    injection Henv as <-; [constructor|].
  destruct (forEach_records_of_hits h r (ri :: infos) closure0' E)
    as (pushed & Hrefs & Hall).
  simpl in Hrefs. now rewrite Hrefs.
Qed.

Lemma forEach_all_near_top (h : Host Uri) r infos :
  (forall ri, In ri infos -> hitConfirmed ri = true -> readFileSync h (file ri) <> None) ->
  existsb beyondHalfWindow infos = false ->
  forall st, preventOverlappingSnippet st = 0%Z ->
  forEach' h r infos st
  = inr (mkClosure (locationsResult st ++ map (location_of' r) (filter hitConfirmed infos))
           (refs st) 0%Z).
Proof.
  induction infos as [|ri infos IH]; intros Hread Hnone st Hcur.
  - simpl. rewrite app_nil_r. destruct st; simpl in *; now subst.
  - simpl in Hnone. apply orb_false_iff in Hnone. destruct Hnone as [Hri Hnone].
    assert (Hread' : forall ri', In ri' infos -> hitConfirmed ri' = true ->
                                 readFileSync h (file ri') <> None).
    { intros ri' Hin. apply Hread. now right. }
    simpl. unfold beyondHalfWindow in Hri.
    destruct (hitConfirmed ri) eqn:Hconf; simpl in *.
    2:{ rewrite forEach_callback_other by assumption. now apply IH. }
    destruct (readFileSync h (file ri)) as [c|] eqn:Hf.
    2:{ exfalso. apply (Hread ri); auto. }
    apply N.ltb_ge in Hri.
    rewrite (@forEach_callback_suppressed h r st ri c Hconf Hf)
      by (rewrite Hcur, window_startLine_low by lia; lia).
    rewrite IH by assumption. simpl. now rewrite <- app_assoc.
Qed.

(** X7: when the workspace has a folder, the first confirmed hit below
    line 10 of its file gets a record if its file can be read, and it is
    the first record: provided the confirmed hits before it are all at
    line 10 or above it and their files can be read, the loop has pushed
    the locations of all the confirmed hits so far, the record of this hit
    alone, and has left the cursor at the end of its window. *)
Theorem X7_first_hit_below_line_10_is_emitted (h : Host Uri) r pre ri c folder rest :
  (forall ri', In ri' pre -> hitConfirmed ri' = true -> readFileSync h (file ri') <> None) ->
  existsb beyondHalfWindow pre = false ->
  beyondHalfWindow ri = true ->
  readFileSync h (file ri) = Some c ->
  workspaceFolders h = folder :: rest ->
  forEach' h r (pre ++ [ri]) closure0'
  = inr (mkClosure (map (location_of' r) (filter hitConfirmed (pre ++ [ri])))
           [record_of Uri_file Uri_toString folder c ri]
           (window_endLine (Js.split c) (line (position ri)))).
Proof.
  intros Hread Hnone Hri Hf Hw.
  unfold beyondHalfWindow in Hri. apply andb_true_iff in Hri.
  destruct Hri as [Hconf Hhigh]. apply N.ltb_lt in Hhigh.
  rewrite forEach_app, (forEach_all_near_top h r pre Hread Hnone closure0' eq_refl).
  simpl forEach.
  rewrite (@forEach_callback_emitted h r _ ri c folder rest Hconf Hf Hw)
    by (simpl; rewrite window_startLine_high by lia; lia).
  simpl. rewrite filter_app, map_app. simpl. rewrite Hconf. reflexivity.
Qed.


(** ** The cursor is shared by all files *)

Lemma cursor_after_dominates cursor records :
  emitted_after cursor records ->
  Forall (fun r => (startLine r <= endLine r)%Z) records ->
  (cursor <= cursor_after cursor records)%Z /\
  Forall (fun r => (endLine r <= cursor_after cursor records)%Z) records.
Proof.
  revert cursor. induction records as [|r records IH]; intros cursor Hafter Hwf; simpl.
  - split; [lia|constructor].
  - destruct Hafter as [Hlt Hafter]. inversion Hwf as [|? ? Hr Hrest]; subst.
    destruct (IH _ Hafter Hrest) as [Hle Hall].
    split; [lia|]. constructor; [lia|assumption].
Qed.

(** X8: once a record is published, a later confirmed hit whose window
    starts at or before the end of that record's window gets no record,
    whatever file it is in: the loop pushes its location and leaves the
    records and the cursor as they were.  It holds when the lines of the
    confirmed hits processed so far exist in the files read for them. *)
Theorem X8_window_reaching_a_published_one_is_suppressed
    (h : Host Uri) r pre ri c st1 published :
  forEach' h r pre closure0' = inr st1 ->
  (forall ri', In ri' pre -> hitConfirmed ri' = true -> line_in_file h ri') ->
  In published (refs st1) ->
  hitConfirmed ri = true ->
  readFileSync h (file ri) = Some c ->
  (window_startLine (line (position ri)) <= endLine published)%Z ->
  forEach' h r (pre ++ [ri]) closure0'
  = inr (mkClosure (locationsResult st1 ++ [location_of' r ri]) (refs st1)
           (preventOverlappingSnippet st1)).
Proof.
  intros Hpre Hin Hpub Hconf Hf Hreach.
  destruct (forEach_records h r pre closure0' Hpre)
    as (pushed & Hrefs & Hafter & Hcur & _ & Hwin).
  simpl in Hrefs, Hafter, Hcur.
  assert (Hord : Forall (fun rec => (startLine rec <= endLine rec)%Z) pushed).
  { eapply Forall_impl; [|exact Hwin]. intros rec Hrec.
    apply Z.lt_le_incl. now apply (@window_of_hit_ordered h pre rec). }
  destruct (@cursor_after_dominates 0%Z pushed Hafter Hord) as [_ Hall].
  rewrite Forall_forall in Hall. rewrite Hrefs in Hpub. specialize (Hall _ Hpub).
  rewrite forEach_app, Hpre. simpl.
  rewrite (@forEach_callback_suppressed h r st1 ri c Hconf Hf) by lia.
  reflexivity.
Qed.

(** ** The text of a snippet *)

Lemma split_nonempty (s : string) : Js.split s <> [].
Proof.
  induction s as [|c s IH]; simpl; [discriminate|].
  destruct (Ascii.eqb c Js.newline); [discriminate|].
  destruct (Js.split s); discriminate.
Qed.

Lemma split_no_newline (s : string) : Forall no_newline (Js.split s).
Proof.
  induction s as [|c s IH]; simpl; [repeat constructor|].
  destruct (Ascii.eqb_spec c Js.newline) as [->|Hc].
  - constructor; [exact I|assumption].
  - destruct (Js.split s) as [|piece pieces]; [repeat constructor; assumption|].
    inversion IH; subst. constructor; [split; assumption|assumption].
Qed.

Lemma split_one_line (s : string) : no_newline s -> Js.split s = [s].
Proof.
  induction s as [|c s IH]; simpl; [reflexivity|].
  intros [Hc Hs]. destruct (Ascii.eqb_spec c Js.newline); [contradiction|].
  now rewrite (IH Hs).
Qed.

Lemma split_first_line (s t : string) :
  no_newline s ->
  Js.split (append s (String Js.newline t)) = s :: Js.split t.
Proof.
  induction s as [|c s IH]; simpl.
  - intros _. reflexivity.
  - intros [Hc Hs]. destruct (Ascii.eqb_spec c Js.newline); [contradiction|].
    now rewrite (IH Hs).
Qed.

(** Splitting what [join] made of lines gives the lines back. *)
Lemma split_join (pieces : list string) :
  pieces <> [] -> Forall no_newline pieces -> Js.split (Js.join pieces) = pieces.
Proof.
  induction pieces as [|piece rest IH]; intros Hne Hall; [congruence|].
  inversion Hall as [|? ? Hpiece Hrest]; subst.
  destruct rest as [|piece' rest'].
  - simpl. now apply split_one_line.
  - change (Js.join (piece :: piece' :: rest'))
      with (append piece (String Js.newline (Js.join (piece' :: rest')))).
    rewrite split_first_line by assumption.
    f_equal. apply IH; [discriminate|assumption].
Qed.

Lemma Forall_slice {A : Type} (P : A -> Prop) (a : list A) (s e : Z) :
  Forall P a -> Forall P (Js.slice a s e).
Proof.
  intros H. unfold Js.slice. rewrite Forall_forall in *.
  intros x Hx. apply H.
  rewrite <- (firstn_skipn (Z.to_nat s) a). apply in_or_app. right.
  rewrite <- (firstn_skipn (Z.to_nat (e - s)) (skipn (Z.to_nat s) a)).
  apply in_or_app. now left.
Qed.

Lemma length_slice {A : Type} (a : list A) (s e : Z) :
  (0 <= s)%Z -> (e <= Z.of_nat (List.length a))%Z ->
  List.length (Js.slice a s e) = Z.to_nat (e - s).
Proof.
  intros Hs He. unfold Js.slice. rewrite length_firstn, length_skipn. lia.
Qed.

Lemma nth_error_slice {A : Type} (a : list A) (s e : Z) (i : nat) :
  (0 <= s)%Z -> (Z.of_nat i < e - s)%Z ->
  nth_error (Js.slice a s e) i = nth_error a (Z.to_nat s + i).
Proof.
  intros Hs Hi. unfold Js.slice. rewrite nth_error_firstn, nth_error_skipn.
  destruct (Nat.ltb_spec i (Z.to_nat (e - s))); [reflexivity|lia].
Qed.

(** X9: the snippet of the record pushed for a confirmed hit whose line
    exists in the file, split at line feeds again, is the lines of the
    file from the record's start line to its end line, the end excluded:
    endLine - startLine lines, of which the one at index line - startLine
    is the line of the hit. *)
Theorem X9_snippet_is_the_window_of_the_file (h : Host Uri) r st ri c folder rest :
  hitConfirmed ri = true ->
  readFileSync h (file ri) = Some c ->
  workspaceFolders h = folder :: rest ->
  (preventOverlappingSnippet st < window_startLine (line (position ri)))%Z ->
  (Z.of_N (line (position ri)) < Z.of_nat (List.length (Js.split c)))%Z ->
  exists st' record,
    forEach_callback' h r st ri = inr st' /\
    refs st' = refs st ++ [record] /\
    Js.split (snippet record) = Js.slice (Js.split c) (startLine record) (endLine record) /\
    List.length (Js.split (snippet record)) = Z.to_nat (endLine record - startLine record) /\
    nth_error (Js.split (snippet record))
      (Z.to_nat (Z.of_N (line (position ri)) - startLine record))
    = nth_error (Js.split c) (N.to_nat (line (position ri))).
Proof.
  intros Hconf Hf Hw Hlt Hin.
  exists (mkClosure (locationsResult st ++ [location_of' r ri])
            (refs st ++ [record_of Uri_file Uri_toString folder c ri])
            (window_endLine (Js.split c) (line (position ri)))),
         (record_of Uri_file Uri_toString folder c ri).
  split; [now apply forEach_callback_emitted with (rest := rest)|].
  split; [reflexivity|].
  assert (Hs : (0 <= window_startLine (line (position ri)))%Z)
    by (unfold window_startLine; lia).
  assert (Hs' : (window_startLine (line (position ri)) <= Z.of_N (line (position ri)))%Z)
    by (unfold window_startLine; rewrite half_window; lia).
  assert (He : (Z.of_N (line (position ri))
                < window_endLine (Js.split c) (line (position ri)))%Z)
    by (rewrite window_endLine_eq; lia).
  assert (He' : (window_endLine (Js.split c) (line (position ri))
                 <= Z.of_nat (List.length (Js.split c)))%Z)
    by (rewrite window_endLine_eq; lia).
  assert (Hsplit :
    Js.split (snippet (record_of Uri_file Uri_toString folder c ri))
    = Js.slice (Js.split c) (window_startLine (line (position ri)))
        (window_endLine (Js.split c) (line (position ri)))).
  { simpl. apply split_join.
    - intros Hnil. apply (f_equal (@List.length string)) in Hnil.
      rewrite length_slice in Hnil by assumption. simpl in Hnil. lia.
    - apply Forall_slice, split_no_newline. }
  simpl startLine. simpl endLine. rewrite Hsplit.
  split; [reflexivity|]. split.
  - now apply length_slice.
  - rewrite nth_error_slice by lia. f_equal. lia.
Qed.

(** ** getRelativePathFromUri on any file *)

Lemma substring_drops (s : string) (n : nat) :
  exists dropped,
    s = append dropped (Js.substring s n) /\
    String.length dropped = Nat.min n (String.length s).
Proof.
  revert s. induction n as [|n IH]; intros s.
  - exists EmptyString. now destruct s.
  - destruct s as [|c s]; [now exists EmptyString|].
    destruct (IH s) as (dropped & Heq & Hlen).
    exists (String c dropped). simpl. split; [now f_equal|now rewrite Hlen].
Qed.

(** X10: getRelativePathFromUri never fails and does not look at what it
    removes: its result is the URI string of the file without its first
    length(base) + 1 characters, whatever they are, and the empty string
    when the URI is no longer than that.  For a file outside the base
    folder the result is still that tail, not a path relative to it. *)
Theorem X10_relative_path_is_the_tail_of_the_uri (basePath : Uri) (f : string) :
  exists dropped,
    Uri_toString (Uri_file f) = append dropped (getRelativePathFromUri' basePath f) /\
    String.length dropped
    = Nat.min (String.length (Uri_toString basePath) + 1)
        (String.length (Uri_toString (Uri_file f))).
Proof.
  unfold getRelativePathFromUri. apply substring_drops.
Qed.

End Properties.

(** * The properties on the concrete host *)

Module Checks.

Import Scenario.

Local Open Scope string_scope.

(** C1, as the specification states it, fails: on three confirmed hits at
    lines 5, 8 and 40 of a file of 100 lines the provider does not publish
    two snippet records. *)
Lemma C1_counterexample :
  ~ (exists snippets,
       env_REFERENCED_SYMBOL_SNIPPET (fst (provide host_5_8_40 document position0 world0))
       = Some snippets /\
       List.length snippets = 2%nat).
Proof.
  intros (snippets & Henv & Hlen). vm_compute in Henv.
  injection Henv as <-. discriminate Hlen.
Qed.

Lemma C1_three_hits_one_snippet_witness :
  exists w' locs,
    provide host_5_8_40 document position0 world0 = (w', inr (Some locs)) /\
    List.length locs = 3%nat /\
    option_map (map window) (env_REFERENCED_SYMBOL_SNIPPET w') = Some [(30, 50)%Z].
Proof.
  destruct (@C1_three_hits_one_snippet Uri Uri_file Uri_toString RequestCancelled
              ServerCancelled host_5_8_40 document position0 world0
              "/ws/a.c" (blank_lines 99) root [] 2%N 4%N 0%N "foo")
    as (w' & Hrun & Henv); try reflexivity.
  exists w'. eexists. split; [exact Hrun|]. split; [reflexivity|].
  rewrite Henv. reflexivity.
Defined.

(** C2, where the code departs from it: when the request fails with the
    error code -32603, which is not a cancellation, provideReferences
    throws that error after the four calls of the prologue and nothing
    else: resetProgressBar has not been called and neither listener has
    been disposed. *)
Theorem C2_rethrow_leaves_before_teardown :
  provide host_internal_error document position0 world0
  = (mkWorld (prologue document position0) None, inl internal_error) /\
  ~ In resetProgressBar
      (calls (fst (provide host_internal_error document position0 world0))) /\
  ~ In (dispose cancellationTokenListener)
      (calls (fst (provide host_internal_error document position0 world0))) /\
  ~ In (dispose requestCanceledListener)
      (calls (fst (provide host_internal_error document position0 world0))).
Proof.
  split; [reflexivity|].
  vm_compute. repeat split; intros H;
    repeat (destruct H as [H|H]; [discriminate H|]); exact H.
Qed.

Lemma C3_cancellation_errors_absorbed_others_rethrown_witness :
  remote host_request_cancelled = Rejected (ResponseError RequestCancelled "Request cancelled") /\
  snd (provide host_request_cancelled document position0 world0) = inr None /\
  remote host_internal_error = Rejected internal_error /\
  snd (provide host_internal_error document position0 world0) = inl internal_error.
Proof.
  split; [reflexivity|]. split.
  - apply (@C3_cancellation_errors_absorbed_others_rethrown Uri Uri_file Uri_toString
             RequestCancelled ServerCancelled host_request_cancelled document position0
             world0 _ eq_refl).
    exists RequestCancelled, "Request cancelled". split; [reflexivity|now left].
  - split; [reflexivity|].
    apply (@C3_cancellation_errors_absorbed_others_rethrown Uri Uri_file Uri_toString
             RequestCancelled ServerCancelled host_internal_error document position0
             world0 _ eq_refl).
    intros (code & message & Heq & [Hcode|Hcode]);
      injection Heq as <- _; discriminate Hcode.
Defined.

Lemma C4_cancelled_query_resets_and_returns_undefined_witness :
  (exists r, remote host_canceled_with_hits = Resolved (Some r) /\
             isCanceled r = true /\ referenceInfos r <> []) /\
  provide host_canceled_with_hits document position0 world0
  = (mkWorld (prologue document position0 ++ teardown ++ [resetReferences]) (Some []),
     inr None).
Proof.
  split.
  - exists response_canceled_with_hits. repeat split. discriminate.
  - apply (@C4_cancelled_query_resets_and_returns_undefined Uri Uri_file Uri_toString
             RequestCancelled ServerCancelled host_canceled_with_hits document position0
             world0).
    + intros e He. discriminate He.
    + right. right. exists response_canceled_with_hits. split; reflexivity.
Defined.



Lemma ForallOrdPairs_three {A : Type} (R : A -> A -> Prop) (a b c : A) :
  ForallOrdPairs R [a; b; c] -> R a c /\ R b c.
Proof.
  intros H. inversion H as [|? ? Ha Hrest]; subst.
  inversion Ha as [|? ? _ Ha']; subst. inversion Ha' as [|? ? Hac _]; subst.
  inversion Hrest as [|? ? Hb _]; subst. inversion Hb as [|? ? Hbc _]; subst.
  split; assumption.
Qed.

Lemma C6_one_location_per_confirmed_hit_witness :
  remote host_5_8_40 = Resolved (Some response_5_8_40) /\
  isCancellationRequested host_5_8_40 = false /\
  isCanceled response_5_8_40 = false /\
  snd (provide host_5_8_40 document position0 world0)
  = inr (Some [mkLocation "file:///ws/a.c"
                 (mkRange (mkPosition 5 2) (mkPosition 5 5));
               mkLocation "file:///ws/a.c"
                 (mkRange (mkPosition 8 4) (mkPosition 8 7));
               mkLocation "file:///ws/a.c"
                 (mkRange (mkPosition 40 0) (mkPosition 40 3))]).
Proof.
  split; [reflexivity|]. split; [reflexivity|]. split; [reflexivity|].
  destruct (@C6_one_location_per_confirmed_hit Uri Uri_file Uri_toString RequestCancelled
              ServerCancelled host_5_8_40 document position0 world0 response_5_8_40
              eq_refl eq_refl eq_refl) as (_ & Hreturns & _).
  apply Hreturns.
  - intros ri [<-|[<-|[<-|[]]]] _; discriminate.
  - discriminate.
Defined.

(** C7, as the specification states it, fails: the second hit lies past
    the end of the file read for it, its window [90,5) is emitted and
    pulls the cursor back to 5, so the third record [42,62) starts before
    the second and overlaps the first, [40,60). *)
Lemma C7_counterexample :
  exists st',
    forEach Uri_file Uri_toString host_stale response_stale
      (referenceInfos response_stale) (closure0 Uri) = inr st' /\
    map window (refs st') = [(40, 60); (90, 5); (42, 62)]%Z /\
    ~ (ForallOrdPairs windows_disjoint (refs st') /\
       ForallOrdPairs (fun r1 r2 => (startLine r1 < startLine r2)%Z) (refs st')).
Proof.
  eexists. split; [vm_compute; reflexivity|].
  split; [reflexivity|].
  intros [_ Hinc]. cbv [refs] in Hinc.
  apply ForallOrdPairs_three in Hinc. destruct Hinc as [_ Hbc].
  vm_compute in Hbc. discriminate Hbc.
Qed.

Lemma C7_records_obey_cursor_witness :
  exists st',
    forEach Uri_file Uri_toString host_three_records response_three_records
      (referenceInfos response_three_records) (closure0 Uri) = inr st' /\
    map window (refs st') = [(30, 50); (70, 90); (95, 100)]%Z /\
    (List.length (refs st') <= 4)%nat /\
    emitted_after 0 (refs st') /\
    preventOverlappingSnippet st' = cursor_after 0 (refs st') /\
    ForallOrdPairs windows_disjoint (refs st') /\
    ForallOrdPairs (fun r1 r2 => (startLine r1 < startLine r2)%Z) (refs st').
Proof.
  eexists. split; [vm_compute; reflexivity|].
  split; [reflexivity|].
  match goal with |- context [refs ?st] =>
    destruct (@C7_records_obey_cursor Uri Uri_file Uri_toString host_three_records
                response_three_records (referenceInfos response_three_records) st)
      as (Hlen & Hafter & Hcur & Hsorted)
  end.
  - vm_compute. reflexivity.
  - split; [exact Hlen|]. split; [exact Hafter|]. split; [exact Hcur|].
    apply Hsorted.
    intros ri [<-|[<-|[<-|[<-|[]]]]] _ c Hc; vm_compute in Hc; injection Hc as <-;
      vm_compute; discriminate.
Defined.

Lemma C8_window_ten_above_ten_below_witness :
  readFileSync host_5_8_40 "/ws/a.c" = Some (blank_lines 99) /\
  List.length (Js.split (blank_lines 99)) = 100%nat /\
  (0 <= 30 /\ 50 <= 100 /\ 50 - 30 <= 20)%Z /\
  exists st',
    forEach_callback Uri_file Uri_toString host_5_8_40 response_5_8_40 (closure0 Uri)
      (hit "/ws/a.c" 40 0) = inr st' /\
    map window (refs st') = [(30, 50)%Z] /\
    preventOverlappingSnippet st' = 50%Z.
Proof.
  split; [reflexivity|]. split; [reflexivity|].
  destruct (@C8_window_ten_above_ten_below Uri Uri_file Uri_toString host_5_8_40
              response_5_8_40 (closure0 Uri) (hit "/ws/a.c" 40 0) (blank_lines 99)
              root [] 40%Z 100%Z 30%Z 50%Z
              eq_refl eq_refl eq_refl eq_refl eq_refl eq_refl eq_refl)
    as (Hbounds & Hstep).
  split; [exact Hbounds|].
  eexists. split; [exact Hstep|]. split; reflexivity.
Defined.

Lemma C9_relativePath_round_trip_witness :
  String.prefix (append (Uri_toString root) "/") (Uri_toString (Uri_file "/ws/a.c")) = true /\
  exists st' record,
    forEach_callback Uri_file Uri_toString host_5_8_40 response_5_8_40 (closure0 Uri)
      (hit "/ws/a.c" 40 0) = inr st' /\
    refs st' = [record] /\
    relativePath record = "a.c" /\
    append (Uri_toString root) (String "/" (relativePath record)) = "file:///ws/a.c".
Proof.
  split; [reflexivity|].
  destruct (@C9_relativePath_round_trip Uri Uri_file Uri_toString host_5_8_40
              response_5_8_40 (closure0 Uri) (hit "/ws/a.c" 40 0) (blank_lines 99)
              root [] "/"%char eq_refl eq_refl eq_refl eq_refl eq_refl)
    as (st' & record & Hstep & Hrefs & Hrel & Hround).
  exists st', record. split; [exact Hstep|]. split; [exact Hrefs|].
  split; [rewrite Hrel; reflexivity|exact Hround].
Defined.

Lemma C10_hit_near_top_gets_no_snippet_witness :
  window_startLine 5 = 0%Z /\
  forEach Uri_file Uri_toString host_5_8_40 response_5_8_40 [hit "/ws/a.c" 5 2]
    (closure0 Uri)
  = inr (mkClosure
           [mkLocation "file:///ws/a.c" (mkRange (mkPosition 5 2) (mkPosition 5 5))]
           [] 0%Z).
Proof.
  destruct (@C10_hit_near_top_gets_no_snippet Uri Uri_file Uri_toString host_5_8_40
              response_5_8_40 [] (hit "/ws/a.c" 5 2) (closure0 Uri) eq_refl)
    as (Hstart & Hrun & _).
  - vm_compute. discriminate.
  - reflexivity.
  - split; [exact Hstart|]. exact (Hrun (blank_lines 99) eq_refl).
Defined.

(** ** Further properties on the concrete host *)


Lemma X4_no_workspace_folder_witness :
  workspaceFolders (host_no_folder response_near_top) = [] /\
  snd (provide (host_no_folder response_near_top) document position0 world0)
  = inr (Some [mkLocation "file:///ws/a.c" (mkRange (mkPosition 5 2) (mkPosition 5 5));
               mkLocation "file:///ws/a.c" (mkRange (mkPosition 8 4) (mkPosition 8 7))]) /\
  exists message,
    provide (host_no_folder response_5_8_40) document position0 world0
    = (mkWorld (prologue document position0 ++ teardown) (Some []),
       inl (TypeError message)).
Proof.
  split; [reflexivity|]. split.
  - destruct (@X4_no_workspace_folder Uri Uri_file Uri_toString RequestCancelled
                ServerCancelled (host_no_folder response_near_top) document position0
                world0 response_near_top eq_refl eq_refl eq_refl eq_refl)
      as [Hlow _].
    + intros ri [<-|[<-|[]]] _; discriminate.
    + exact (Hlow eq_refl).
  - destruct (@X4_no_workspace_folder Uri Uri_file Uri_toString RequestCancelled
                ServerCancelled (host_no_folder response_5_8_40) document position0
                world0 response_5_8_40 eq_refl eq_refl eq_refl eq_refl)
      as [_ Hhigh].
    + intros ri [<-|[<-|[<-|[]]]] _; discriminate.
    + exact (Hhigh eq_refl).
Defined.

Lemma X5_unconfirmed_hits_are_ignored_witness :
  readFileSync host_mixed "/ws/gone.c" = None /\
  readFileSync host_mixed_restored "/ws/gone.c" <> None /\
  forEach Uri_file Uri_toString host_mixed response_mixed
    (referenceInfos response_mixed) (closure0 Uri)
  = forEach Uri_file Uri_toString host_mixed_restored response_mixed
      [hit "/ws/a.c" 40 0; hit "/ws/a.c" 80 0] (closure0 Uri).
Proof.
  split; [reflexivity|]. split; [discriminate|].
  apply (@X5_unconfirmed_hits_are_ignored Uri Uri_file Uri_toString host_mixed
           host_mixed_restored response_mixed (referenceInfos response_mixed) eq_refl).
  intros ri [<-|[<-|[<-|[]]]] Hconf; try reflexivity; discriminate Hconf.
Defined.

Lemma X6_published_records_come_from_confirmed_hits_witness :
  exists records,
    env_REFERENCED_SYMBOL_SNIPPET (fst (provide host_5_8_40 document position0 world0))
    = Some records /\
    List.length records = 1%nat /\
    Forall (record_of_hit Uri_file Uri_toString host_5_8_40 (referenceInfos response_5_8_40))
      records.
Proof.
  eexists. split; [vm_compute; reflexivity|]. split; [reflexivity|].
  apply (@X6_published_records_come_from_confirmed_hits Uri Uri_file Uri_toString
           RequestCancelled ServerCancelled host_5_8_40 document position0 world0
           response_5_8_40 _ eq_refl).
  vm_compute. reflexivity.
Defined.

Lemma X7_first_hit_below_line_10_is_emitted_witness :
  existsb beyondHalfWindow [hit "/ws/a.c" 5 2; hit "/ws/a.c" 8 4] = false /\
  beyondHalfWindow (hit "/ws/a.c" 40 0) = true /\
  exists st',
    forEach Uri_file Uri_toString host_5_8_40 response_5_8_40
      (referenceInfos response_5_8_40) (closure0 Uri) = inr st' /\
    List.length (locationsResult st') = 3%nat /\
    map window (refs st') = [(30, 50)%Z] /\
    preventOverlappingSnippet st' = 50%Z.
Proof.
  split; [reflexivity|]. split; [reflexivity|].
  eexists. split.
  - apply (@X7_first_hit_below_line_10_is_emitted Uri Uri_file Uri_toString host_5_8_40
             response_5_8_40 [hit "/ws/a.c" 5 2; hit "/ws/a.c" 8 4] (hit "/ws/a.c" 40 0)
             (blank_lines 99) root []); try reflexivity.
    intros ri [<-|[<-|[]]] _; discriminate.
  - repeat split.
Defined.

Lemma X8_window_reaching_a_published_one_is_suppressed_witness :
  file (hit "/ws/a.c" 40 0) <> file (hit "/ws/b.c" 55 0) /\
  exists st',
    forEach Uri_file Uri_toString host_two_files response_two_files
      (referenceInfos response_two_files) (closure0 Uri) = inr st' /\
    List.length (locationsResult st') = 2%nat /\
    map window (refs st') = [(30, 50)%Z] /\
    preventOverlappingSnippet st' = 50%Z.
Proof.
  split; [discriminate|].
  eexists. split.
  - eapply (@X8_window_reaching_a_published_one_is_suppressed Uri Uri_file Uri_toString
              host_two_files response_two_files [hit "/ws/a.c" 40 0] (hit "/ws/b.c" 55 0)
              (blank_lines 199)).
    + vm_compute. reflexivity.
    + intros ri [<-|[]] _ c Hc. vm_compute in Hc. injection Hc as <-.
      vm_compute. reflexivity.
    + left. reflexivity.
    + reflexivity.
    + reflexivity.
    + vm_compute. discriminate.
  - repeat split.
Defined.

Lemma X9_snippet_is_the_window_of_the_file_witness :
  List.length (Js.split (file_of_lines numbered_12)) = 12%nat /\
  exists st' record,
    forEach_callback Uri_file Uri_toString host_numbered response_numbered (closure0 Uri)
      (hit "/ws/n.c" 11 0) = inr st' /\
    refs st' = [record] /\
    Js.split (snippet record)
    = ["l1"; "l2"; "l3"; "l4"; "l5"; "l6"; "l7"; "l8"; "l9"; "l10"; "l11"] /\
    nth_error (Js.split (snippet record)) 10 = Some "l11".
Proof.
  split; [reflexivity|].
  destruct (@X9_snippet_is_the_window_of_the_file Uri Uri_file Uri_toString host_numbered
              response_numbered (closure0 Uri) (hit "/ws/n.c" 11 0)
              (file_of_lines numbered_12) root [] eq_refl eq_refl eq_refl eq_refl eq_refl)
    as (st' & record & Hstep & Hrefs & Hsplit & _ & Hline).
  exists st', record. split; [exact Hstep|]. split; [exact Hrefs|].
  vm_compute in Hstep. injection Hstep as <-.
  simpl in Hrefs. injection Hrefs as <-.
  split; reflexivity.
Defined.

End Checks.
